(** * A shallow embedding of the red-ball tracker

    The repository has three Python files:
    - [perspective_mapper.py]: class [PerspectiveMapper] (fixed homography),
    - [ball_detector.py]: function [detect_ball] (colour and shape filter),
    - [main_tracker.py]: the per-frame driver with two bounded trajectories.

    Conventions of the embedding.
    - A Python [float] is a rational number ([Q]); the arithmetic the Python
      code performs itself ([*], [/], [**], comparisons, [int(...)]) is the
      exact one, so rounding of IEEE doubles is not part of the model.
      Where a value can leave the range of its float type (the conversion
      of an integer of any size, the cast of a coordinate to single
      precision) the module [Float] adds the infinities and nan.
    - [None] is [option]'s [None]; a Python exception is [Raise].
    - OpenCV and vidstab are external: where their result is a simple
      pixel-wise or algebraic function it is written out from the OpenCV
      documentation, otherwise it is a method of the class [OpenCV] or [VidStab]. *)

From Stdlib Require Import List ZArith QArith Qround Qabs Bool Lia Lqa.
Import ListNotations.

Set Implicit Arguments.

(** ** Python values shared by the three files *)

Module Py.

(** The exceptions the code can meet.  [Cv2Error] stands for what a call
    of a cv2 drawing function raises when it refuses an argument:
    [cv2.error], or the error of converting the argument. *)
Inductive exn : Type :=
| ZeroDivisionError
| ValueError
| OverflowError
| Cv2Error.

(** The outcome of a Python call: a value or a raised exception. *)
Inductive result (A : Type) : Type :=
| Ok (a : A)
| Raise (e : exn).

Arguments Ok {A} a.
Arguments Raise {A} e.

Definition bind {A B : Type} (m : result A) (k : A -> result B) : result B :=
  match m with
  | Ok a => k a
  | Raise e => Raise e
  end.

(** [for x in xs: acc = body(acc, x)], stopping at the first exception. *)
Fixpoint for_each {A S : Type} (body : S -> A -> result S) (xs : list A)
  (acc : S) : result S :=
  match xs with
  | [] => Ok acc
  | x :: xs' => bind (body acc x) (for_each body xs')
  end.

(** [a < b] on floats. *)
Definition ltb (a b : Q) : bool := negb (Qle_bool b a).

(** [a / b] on floats: Python raises on a zero divisor. *)
Definition div (a b : Q) : result Q :=
  if Qeq_bool b 0 then Raise ZeroDivisionError else Ok (a / b).

(** [int(x)] on a float: truncation toward zero. *)
Definition int (x : Q) : Z := Z.quot (Qnum x) (Zpos (Qden x)).

(** [math.pi]: the double nearest to pi, as the rational it denotes. *)
Definition math_pi : Q := 884279719003555 # 281474976710656.

End Py.

Notation "x <- m ;; k" := (Py.bind m (fun x => k))
  (at level 61, m at next level, right associativity).

Import Py.

(** Pixel coordinates as [detect_ball] returns them and as the driver
    buffers them. *)
Definition point : Type := (Z * Z)%type.

(** ** Floats with their range *)

Module Float.

(** A float as Python and numpy hold it: a number, an infinity or nan. *)
Inductive t : Type :=
| Fin (q : Q)
| Inf (negative : bool)
| NaN.

(** From these magnitudes on, rounding to nearest gives infinity: in single
    and in double precision. *)
Definition limit32 : Z := 2 ^ 128 - 2 ^ 103.
Definition limit64 : Z := 2 ^ 1024 - 2 ^ 970.
Definition overflow32 : Q := inject_Z limit32.
Definition overflow64 : Q := inject_Z limit64.

(** C's [FLT_EPSILON], 2^-23. *)
Definition FLT_EPSILON : Q := 1 # 8388608.

Definition rounded (limit q : Q) : t :=
  if Py.ltb (Qabs q) limit then Fin q else Inf (Py.ltb q 0).

(** The result of an operation in double precision. *)
Definition double (q : Q) : t := rounded overflow64 q.

(** The cast to single precision, [np.float32(x)] or C's [(float)x]. *)
Definition single (a : t) : t :=
  match a with
  | Fin q => rounded overflow32 q
  | _ => a
  end.

Definition add (a b : t) : t :=
  match a, b with
  | NaN, _ | _, NaN => NaN
  | Fin x, Fin y => double (x + y)
  | Inf s, Fin _ | Fin _, Inf s => Inf s
  | Inf s, Inf s' => if Bool.eqb s s' then Inf s else NaN
  end.

Definition mul (a b : t) : t :=
  match a, b with
  | NaN, _ | _, NaN => NaN
  | Fin x, Fin y => double (x * y)
  | Inf s, Fin y | Fin y, Inf s =>
      if Qeq_bool y 0 then NaN else Inf (xorb s (Py.ltb y 0))
  | Inf s, Inf s' => Inf (xorb s s')
  end.

(** [1. / a]. *)
Definition inv (a : t) : t :=
  match a with
  | Fin q => if Qeq_bool q 0 then Inf false else double (/ q)
  | Inf _ => Fin 0
  | NaN => NaN
  end.

(** [fabs(a) > bound]; a comparison with nan is false. *)
Definition exceeds (a : t) (bound : Q) : bool :=
  match a with
  | Fin q => Py.ltb bound (Qabs q)
  | Inf _ => true
  | NaN => false
  end.

(** The conversion of a Python [int] to a float, as [float(n)] and as the
    division of an [int] by a float perform it: "int too large to convert
    to float". *)
Definition of_int (n : Z) : result Q :=
  if Py.ltb (Qabs (inject_Z n)) overflow64 then Ok (inject_Z n)
  else Raise OverflowError.

(** [int(a)]: Python converts neither an infinity nor nan. *)
Definition int (a : t) : result Z :=
  match a with
  | Fin q => Ok (Py.int q)
  | Inf _ => Raise OverflowError
  | NaN => Raise ValueError
  end.

End Float.

(** ** Images and the OpenCV operations the repository calls *)

Module Cv.

(** A three-channel 8-bit pixel (BGR or HSV), a frame and a one-channel
    mask, row by row. *)
Definition Pixel : Type := (Z * Z * Z)%type.
Definition Frame : Type := list (list Pixel).
Definition Mask : Type := list (list Z).

(** A contour: an ordered sequence of integer points. *)
Definition Contour : Type := list point.

(** The entries of [cv2.moments] that the detector reads. *)
Record Moments : Type := mkMoments { m00 : Q; m10 : Q; m01 : Q }.

(** A 3x3 matrix, row major. *)
Record Matrix : Type := mkMatrix {
  m11 : Q; m12 : Q; m13 : Q;
  m21 : Q; m22 : Q; m23 : Q;
  m31 : Q; m32 : Q; m33 : Q
}.

(** The operations whose result is not written out here: filtering,
    colour conversion, resampling, contour extraction and contour
    measurements. *)
Class OpenCV : Type := {
  GaussianBlur : Frame -> Z * Z -> Q -> Frame;
  cvtColor_BGR2HSV : Frame -> Frame;
  resize_INTER_AREA : Frame -> Z * Z -> Frame;
  warpPerspective : Frame -> Matrix -> Z * Z -> Frame;
  findContours_EXTERNAL_SIMPLE : Mask -> list Contour;
  contourArea : Contour -> Q;
  minEnclosingCircle : Contour -> (Q * Q) * Q;
  moments : Contour -> Moments
}.

(** *** cv2.inRange and cv2.bitwise_or *)

Definition within (lo hi px : Pixel) : bool :=
  let '(l1, l2, l3) := lo in
  let '(u1, u2, u3) := hi in
  let '(a, b, c) := px in
  ((l1 <=? a) && (a <=? u1) && (l2 <=? b) && (b <=? u2)
   && (l3 <=? c) && (c <=? u3))%Z.

Definition inRange (img : Frame) (lo hi : Pixel) : Mask :=
  map (map (fun px => if within lo hi px then 255%Z else 0%Z)) img.

Fixpoint zip_with {A B C : Type} (f : A -> B -> C) (xs : list A)
  (ys : list B) : list C :=
  match xs, ys with
  | x :: xs', y :: ys' => f x y :: zip_with f xs' ys'
  | _, _ => []
  end.

Definition bitwise_or (a b : Mask) : Mask := zip_with (zip_with Z.lor) a b.

(** *** cv2.erode and cv2.dilate

    Anchor at the kernel centre; pixels outside the image do not take part
    (OpenCV's default border value for morphology). *)

Definition np_ones (rows cols : nat) : list (list Z) :=
  repeat (repeat 1%Z cols) rows.

Fixpoint mapi_from {A B : Type} (i : nat) (f : nat -> A -> B) (l : list A)
  : list B :=
  match l with
  | [] => []
  | a :: l' => f i a :: mapi_from (S i) f l'
  end.

Definition mapi {A B : Type} (f : nat -> A -> B) (l : list A) : list B :=
  mapi_from 0 f l.

(** Offsets [(dy, dx)] of the non-zero kernel entries from the anchor. *)
Definition kernel_offsets (kernel : list (list Z)) : list (Z * Z) :=
  let ay := Z.of_nat (length kernel / 2) in
  concat (mapi (fun i row =>
    let ax := Z.of_nat (length row / 2) in
    concat (mapi (fun j k =>
      if (k =? 0)%Z then []
      else [(Z.of_nat i - ay, Z.of_nat j - ax)%Z]) row)) kernel).

Definition pixel_at (img : Mask) (y x : Z) : option Z :=
  if ((y <? 0) || (x <? 0))%Z then None
  else match nth_error img (Z.to_nat y) with
       | Some row => nth_error row (Z.to_nat x)
       | None => None
       end.

Definition neighbourhood (kernel : list (list Z)) (img : Mask) (y x : nat)
  : list Z :=
  flat_map (fun d : Z * Z =>
              match pixel_at img (Z.of_nat y + fst d) (Z.of_nat x + snd d) with
              | Some v => [v]
              | None => []
              end) (kernel_offsets kernel).

Definition erode_once (kernel : list (list Z)) (img : Mask) : Mask :=
  mapi (fun y row =>
    mapi (fun x (_ : Z) =>
      fold_right Z.min 255%Z (neighbourhood kernel img y x)) row) img.

Definition dilate_once (kernel : list (list Z)) (img : Mask) : Mask :=
  mapi (fun y row =>
    mapi (fun x (_ : Z) =>
      fold_right Z.max 0%Z (neighbourhood kernel img y x)) row) img.

Definition erode (img : Mask) (kernel : list (list Z)) (iterations : nat)
  : Mask := Nat.iter iterations (erode_once kernel) img.

Definition dilate (img : Mask) (kernel : list (list Z)) (iterations : nat)
  : Mask := Nat.iter iterations (dilate_once kernel) img.

End Cv.

Import Cv.

(** ** perspective_mapper.py *)

Module Mapper.

(** *** cv2.getPerspectiveTransform

    OpenCV builds the 8x8 linear system of the four correspondences
    (unknowns [c00 .. c21], with [c22 = 1]) and solves it.  The system is
    written out as OpenCV writes it and solved by Gauss-Jordan elimination
    over the rationals. *)

Definition Row : Type := list Q.

Definition system_rows (src dst : list (Q * Q)) : list Row :=
  map (fun sd : (Q * Q) * (Q * Q) =>
         let '((x, y), (u, _)) := sd in
         [x; y; 1; 0; 0; 0; - x * u; - y * u; u]) (combine src dst)
  ++
  map (fun sd : (Q * Q) * (Q * Q) =>
         let '((x, y), (_, v)) := sd in
         [0; 0; 0; x; y; 1; - x * v; - y * v; v]) (combine src dst).

Definition entry (k : nat) (r : Row) : Q := nth k r 0.

Fixpoint find_pivot (k : nat) (rows : list Row) : option (Row * list Row) :=
  match rows with
  | [] => None
  | r :: rs =>
      if Qeq_bool (entry k r) 0 then
        match find_pivot k rs with
        | Some (p, rest) => Some (p, r :: rest)
        | None => None
        end
      else Some (r, rs)
  end.

Definition scale (c : Q) (r : Row) : Row := map (fun x => Qred (c * x)) r.

(** [r - (entry k r) * p], the row [r] with column [k] cleared. *)
Definition eliminate (k : nat) (p r : Row) : Row :=
  map (fun ab : Q * Q => Qred (snd ab - entry k r * fst ab)) (combine p r).

Fixpoint gauss_jordan (cols : list nat) (done todo : list Row)
  : option (list Row) :=
  match cols with
  | [] => Some done
  | k :: cols' =>
      match find_pivot k todo with
      | None => None
      | Some (p, rest) =>
          let p' := scale (/ entry k p) p in
          gauss_jordan cols' (map (eliminate k p') done ++ [p'])
                       (map (eliminate k p') rest)
      end
  end.

Definition solve (rows : list Row) : option (list Q) :=
  match gauss_jordan (seq 0 8) [] rows with
  | Some rs => Some (map (entry 8) rs)
  | None => None
  end.

Definition getPerspectiveTransform (src dst : list (Q * Q)) : option Matrix :=
  match solve (system_rows src dst) with
  | Some [c00; c01; c02; c10; c11; c12; c20; c21] =>
      Some (mkMatrix c00 c01 c02 c10 c11 c12 c20 c21 1)
  | _ => None
  end.

(** *** cv2.perspectiveTransform on one point

    [(x, y)] goes to [(X / w, Y / w)] with [(X, Y, w) = M (x, y, 1)];
    OpenCV yields [(0, 0)] unless [fabs(w) > FLT_EPSILON]. *)
Definition perspectiveTransform (m : Matrix) (p : Q * Q) : Q * Q :=
  let '(x, y) := p in
  let X := m11 m * x + m12 m * y + m13 m in
  let Y := m21 m * x + m22 m * y + m23 m in
  let w := m31 m * x + m32 m * y + m33 m in
  if Py.ltb Float.FLT_EPSILON (Qabs w) then (X / w, Y / w) else (0, 0).

(** *** class PerspectiveMapper *)

Record PerspectiveMapper : Type := mkMapper {
  WARPED_WIDTH : Z;
  WARPED_HEIGHT : Z;
  pts_src : list (Q * Q);
  pts_dst : list (Q * Q);
  M : Matrix
}.

Definition zero_matrix : Matrix := mkMatrix 0 0 0 0 0 0 0 0 0.

(** [PerspectiveMapper.__init__]; [frame_width] is not used by the body. *)
Definition init (frame_width : Z) : PerspectiveMapper :=
  let width := 400%Z in
  let height := 900%Z in
  let src := [(220, 100); (420, 100); (500, 590); (140, 590)] in
  let dst := [(0, 0);
              (inject_Z (width - 1), 0);
              (inject_Z (width - 1), inject_Z (height - 1));
              (0, inject_Z (height - 1))] in
  mkMapper width height src dst
    (match getPerspectiveTransform src dst with
     | Some m => m
     | None => zero_matrix
     end).

(** Two pixel positions at most one apart in each coordinate. *)
Definition within_rounding (p q : point) : Prop :=
  (Z.abs (fst p - fst q) <= 1 /\ Z.abs (snd p - snd q) <= 1)%Z.

(** [PerspectiveMapper.warp_frame]. *)
Definition warp_frame {cv : OpenCV} (self : PerspectiveMapper)
  (frame : Frame) : Frame :=
  warpPerspective frame (M self) (WARPED_WIDTH self, WARPED_HEIGHT self).

(** [PerspectiveMapper.transform_point]. *)
Definition transform_point (self : PerspectiveMapper) (pt : option (Q * Q))
  : option point :=
  match pt with
  | None => None
  | Some p =>
      let dst_pt := perspectiveTransform (M self) p in
      Some (Py.int (fst dst_pt), Py.int (snd dst_pt))
  end.

End Mapper.


(** ** perspective_mapper.py within the range of the floats

    [transform_point] casts the coordinates it is given to single
    precision, OpenCV computes in double precision and casts the result
    back, and [int(...)] converts neither infinity nor nan.  Where the
    values stay in range this is [Mapper.transform_point]; this
    embedding keeps the special values. *)

Module MapperFloat.


(** [x*a + y*b + c] in double precision, as C evaluates it. *)
Definition row (x y : Float.t) (a b c : Q) : Float.t :=
  Float.add (Float.add (Float.mul x (Float.Fin a)) (Float.mul y (Float.Fin b)))
            (Float.Fin c).

(** cv2.perspectiveTransform on one point of a float32 array:
    [w = x*m[6] + y*m[7] + m[8]]; if [fabs(w) > FLT_EPSILON] the point is
    [((float)((x*m[0] + y*m[1] + m[2]) * (1./w)), ...)], otherwise
    [(0, 0)]. *)
Definition perspectiveTransform (m : Matrix) (p : Float.t * Float.t)
  : Float.t * Float.t :=
  let '(x, y) := p in
  let w := row x y (m31 m) (m32 m) (m33 m) in
  if Float.exceeds w Float.FLT_EPSILON then
    let w' := Float.inv w in
    (Float.single (Float.mul (row x y (m11 m) (m12 m) (m13 m)) w'),
     Float.single (Float.mul (row x y (m21 m) (m22 m) (m23 m)) w'))
  else (Float.Fin 0, Float.Fin 0).

(** [PerspectiveMapper.transform_point] on a point given as two Python
    floats. *)
Definition transform_point (self : Mapper.PerspectiveMapper)
  (pt : option (Float.t * Float.t)) : result (option point) :=
  match pt with
  | None => Ok None
  | Some (px, py) =>
      let src_pt := (Float.single px, Float.single py) in
      let dst_pt := perspectiveTransform (Mapper.M self) src_pt in
      a <- Float.int (fst dst_pt) ;;
      b <- Float.int (snd dst_pt) ;;
      Ok (Some (a, b))
  end.

End MapperFloat.

(** ** ball_detector.py *)

Module Detector.

Section WithOpenCV.

Context {cv : OpenCV}.

(** Steps 1 to 3 of [detect_ball]: blur, HSV, the two red ranges joined,
    then two erosions and two dilations with a 5x5 kernel of ones. *)
Definition cleaned_mask (frame : Frame) : Mask :=
  let redLower1 := (0, 100, 50)%Z in
  let redUpper1 := (10, 255, 255)%Z in
  let redLower2 := (170, 100, 50)%Z in
  let redUpper2 := (179, 255, 255)%Z in
  let blurred := GaussianBlur frame (11, 11)%Z 0 in
  let hsv := cvtColor_BGR2HSV blurred in
  let mask1 := inRange hsv redLower1 redUpper1 in
  let mask2 := inRange hsv redLower2 redUpper2 in
  let mask := bitwise_or mask1 mask2 in
  let kernel := np_ones 5 5 in
  let mask := erode mask kernel 2 in
  let mask := dilate mask kernel 2 in
  mask.

(** The body of the loop of step 5 on the pair [(best_c, max_area)];
    [continue] leaves the pair as it was. *)
Definition filter_body (acc : option Contour * Q) (c : Contour)
  : result (option Contour * Q) :=
  let '(best_c, max_area) := acc in
  let area := contourArea c in
  if Py.ltb area 100 then Ok acc
  else
    let '(_, radius) := minEnclosingCircle c in
    if Qeq_bool radius 0 then Ok acc
    else
      let circle_area := Py.math_pi * (radius ^ 2) in
      ratio <- Py.div area circle_area ;;
      if Py.ltb (7 # 10) ratio then
        if Py.ltb max_area area && Py.ltb area 8000
        then Ok (Some c, area)
        else Ok acc
      else Ok acc.

Definition select_best (cnts : list Contour)
  : result (option Contour * Q) :=
  Py.for_each filter_body cnts (None, 0).

Definition detect_ball (frame : Frame) : result (option point * Q * Mask) :=
  let mask := cleaned_mask frame in
  let cnts := findContours_EXTERNAL_SIMPLE mask in
  sel <- select_best cnts ;;
  match fst sel with
  | Some best_c =>
      let '(_, radius) := minEnclosingCircle best_c in
      let mo := moments best_c in
      if negb (Qeq_bool (m00 mo) 0) then
        cx <- Py.div (m10 mo) (m00 mo) ;;
        cy <- Py.div (m01 mo) (m00 mo) ;;
        Ok (Some (Py.int cx, Py.int cy), radius, mask)
      else Ok (None, 0, mask)
  | None => Ok (None, 0, mask)
  end.

(** *** Vocabulary of the properties *)

Definition radius_of (c : Contour) : Q := snd (minEnclosingCircle c).

(** Contour area over the area of the enclosing circle. *)
Definition circularity (c : Contour) : Q :=
  contourArea c / (Py.math_pi * radius_of c ^ 2).

(** The four constraints on a ball candidate. *)
Definition qualifies (c : Contour) : Prop :=
  100 <= contourArea c
  /\ ~ radius_of c == 0
  /\ 7 # 10 < circularity c
  /\ contourArea c < 8000.

(** The centre computed from the moments of a contour. *)
Definition centroid (c : Contour) : point :=
  (Py.int (m10 (moments c) / m00 (moments c)),
   Py.int (m01 (moments c) / m00 (moments c))).

(** An HSV pixel in one of the two red ranges, in 8-bit terms. *)
Definition is_red (px : Pixel) : Prop :=
  let '(h, s, v) := px in
  ((0 <= h <= 10 \/ 170 <= h <= 179) /\ 100 <= s /\ 50 <= v)%Z.

Definition hsv_of (frame : Frame) : Frame :=
  cvtColor_BGR2HSV (GaussianBlur frame (11, 11)%Z 0).

Definition all_zero (m : Mask) : Prop := Forall (Forall (eq 0%Z)) m.

(** What the loop of step 5 knows after the contours [seen]. *)
Definition loop_inv (seen : list Contour) (acc : option Contour * Q)
  : Prop :=
  match fst acc with
  | None => snd acc = 0 /\ forall c, In c seen -> ~ qualifies c
  | Some b =>
      In b seen /\ qualifies b /\ snd acc = contourArea b
      /\ forall c, In c seen -> qualifies c -> contourArea c <= contourArea b
  end.

End WithOpenCV.

End Detector.

(** ** main_tracker.py: draw_trajectory *)

Module Trajectory.

(** [np.sqrt] on arguments that are not negative. *)
Class Numpy : Type := { sqrt : Q -> Q }.

Definition Color : Type := (Z * Z * Z)%type.

(** One call of [cv2.line] that went through. *)
Record Line : Type := mkLine {
  pt1 : point;
  pt2 : point;
  color : Color;
  thickness : Z
}.

(** OpenCV's largest line thickness. *)
Definition MAX_THICKNESS : Z := 32767.

(** An integer that fits the C [int] of a cv2 argument. *)
Definition c_int (v : Z) : bool := ((- 2 ^ 31 <=? v) && (v <? 2 ^ 31))%Z.

(** [cv2.line(frame, p, q, c, t)]: the call refuses a thickness outside
    1 .. [MAX_THICKNESS] and a coordinate that does not fit a C [int]. *)
Definition cv2_line (p q : point) (c : Color) (t : Z) : result Line :=
  if c_int (fst p) && c_int (snd p) && c_int (fst q) && c_int (snd q)
     && (0 <? t)%Z && (t <=? MAX_THICKNESS)%Z
  then Ok (mkLine p q c t)
  else Raise Cv2Error.

Section WithNumpy.

Context {np : Numpy}.

(** [np.sqrt]: below zero the result is nan. *)
Definition np_sqrt (x : Q) : Float.t :=
  if Py.ltb x 0 then Float.NaN else Float.double (sqrt x).

(** Line 23: [int(np.sqrt(buffer_size / float(i + 1)) * 2.5)].  The
    division converts [buffer_size], a Python [int] of any size, to a
    float. *)
Definition line_thickness (buffer_size : Z) (i : nat) : result Z :=
  divisor <- Float.of_int (Z.of_nat i + 1) ;;
  dividend <- Float.of_int buffer_size ;;
  ratio <- Py.div dividend divisor ;;
  Float.int (Float.mul (np_sqrt ratio) (Float.Fin (5 # 2))).

(** The body of the loop for index [i], on the lines drawn so far;
    [pts[i - 1]] and [pts[i]] are in range for every [i] the loop visits. *)
Definition draw_body (pts : list (option point)) (c : Color)
  (buffer_size : Z) (drawn : list Line) (i : nat) : result (list Line) :=
  match nth (i - 1) pts None, nth i pts None with
  | Some p, Some q =>
      t <- line_thickness buffer_size i ;;
      l <- cv2_line p q c t ;;
      Ok (drawn ++ [l])
  | _, _ => Ok drawn
  end.

(** [draw_trajectory]: the calls of [cv2.line] it makes, in order. *)
Definition draw_trajectory (pts : list (option point)) (c : Color)
  (buffer_size : Z) : result (list Line) :=
  Py.for_each (draw_body pts c buffer_size) (seq 1 (length pts - 1)) [].

End WithNumpy.

(** The colour both calls in [main] pass. *)
Definition red : Color := (0, 0, 255)%Z.

End Trajectory.

(** ** main_tracker.py *)

Module Tracker.

Definition FRAME_WIDTH : Z := 600.
Definition SMOOTHING_WINDOW : Z := 30.

(** *** collections.deque(maxlen=n)

    The constructor takes [maxlen] as a C [ssize_t] (64 bits) and refuses a
    negative one.  [appendleft] puts the item in front and, when the length
    then exceeds [maxlen], pops one item from the other end. *)
Record deque (A : Type) : Type := mkDeque { maxlen : nat; items : list A }.

Definition deque_new {A : Type} (n : Z) : result (deque A) :=
  if ((n <? - 2 ^ 63) || (2 ^ 63 <=? n))%Z then Raise OverflowError
  else if (n <? 0)%Z then Raise ValueError
  else Ok (mkDeque (Z.to_nat n) []).

Definition appendleft {A : Type} (d : deque A) (x : A) : deque A :=
  let xs := x :: items d in
  mkDeque (maxlen d)
          (if (maxlen d <? length xs)%nat then removelast xs else xs).

(** [args["buffer"]]: the [-b] option, 64 when it is not given. *)
Definition buffer_arg (given : option Z) : Z :=
  match given with
  | Some b => b
  | None => 64%Z
  end.

(** *** The stabilizer (vidstab.VidStab), a black box with its own state *)
Class VidStab : Type := {
  Stabilizer : Type;
  VidStab_new : Stabilizer;
  stabilize_frame : Stabilizer -> Frame -> Z -> Stabilizer * option Frame
}.

(** *** What one iteration does to the outside, in program order *)
Inductive View : Type := StabilizedView | TopDownView | MaskView.

Inductive Event : Type :=
| WarpFrame
| DebugOverlay
| DetectBall
| DrawDetection (center : point) (radius : Z)
| TransformPoint (center : point)
| DrawWarpedPosition (center_warped : point)
| DrawTrajectory (v : View) (pts : list (option point)) (buffer_size : Z)
| Imshow (v : View)
| WaitKey.

Inductive control : Type := Next | Break.

Section WithCollaborators.

Context {cv : OpenCV} {vidstab : VidStab} {np : Trajectory.Numpy}.

(** The variables of [main] that live across iterations, and the log of
    what was done so far. *)
Record State : Type := mkState {
  stabilizer : Stabilizer;
  pts_original : deque (option point);
  pts_warped : deque (option point);
  trace : list Event
}.

(** [frame.shape]: rows and columns. *)
Definition shape (frame : Frame) : Z * Z :=
  (Z.of_nat (length frame), Z.of_nat (length (hd [] frame))).

(** Lines 98 to 111: the transformed centre and the overlay calls. *)
Definition warp_center (mapper : Mapper.PerspectiveMapper)
  (center : option point) : option point :=
  match center with
  | Some (x, y) =>
      Mapper.transform_point mapper (Some (inject_Z x, inject_Z y))
  | None => None
  end.

Definition overlay_events (center center_warped : option point)
  (radius : Q) : list Event :=
  match center with
  | Some c =>
      [DrawDetection c (Py.int radius); TransformPoint c]
      ++ match center_warped with
         | Some cw => [DrawWarpedPosition cw]
         | None => []
         end
  | None => []
  end.

(** Lines 61 to 64: rescale to the working width, keeping the aspect. *)
Definition resize_to_width (frame : Frame) : result Frame :=
  let '(height, width) := shape frame in
  scale <- Py.div (inject_Z FRAME_WIDTH) (inject_Z width) ;;
  let dim := (FRAME_WIDTH, Py.int (inject_Z height * scale)) in
  Ok (resize_INTER_AREA frame dim).

(** One pass through the body of [while True], for a frame that was read
    and the key that [waitKey] reports if it is reached.  The two calls of
    [draw_trajectory] are made, so that what they raise ends the
    iteration; the other drawing and display calls are entries of the
    log. *)
Definition loop_body (mapper : Mapper.PerspectiveMapper) (buffer : Z)
  (st : State) (input : Frame * Z) : result (State * control) :=
  let '(frame, pressed) := input in
  frame <- resize_to_width frame ;;
  let '(stabilizer', frame_stabilized) :=
    stabilize_frame (stabilizer st) frame SMOOTHING_WINDOW in
  match frame_stabilized with
  | None =>
      Ok (mkState stabilizer' (pts_original st) (pts_warped st) (trace st),
          Next)
  | Some frame_stabilized =>
      det <- Detector.detect_ball frame_stabilized ;;
      let '(center, radius, _) := det in
      let center_warped := warp_center mapper center in
      let pts_original' := appendleft (pts_original st) center in
      let pts_warped' := appendleft (pts_warped st) center_warped in
      lines_original <-
        Trajectory.draw_trajectory (items pts_original') Trajectory.red buffer ;;
      lines_warped <-
        Trajectory.draw_trajectory (items pts_warped') Trajectory.red buffer ;;
      let key := Z.land pressed 255 in
      Ok (mkState stabilizer' pts_original' pts_warped'
            (trace st
             ++ [WarpFrame; DebugOverlay; DetectBall]
             ++ overlay_events center center_warped radius
             ++ [DrawTrajectory StabilizedView (items pts_original') buffer;
                 DrawTrajectory TopDownView (items pts_warped') buffer;
                 Imshow StabilizedView; Imshow TopDownView; Imshow MaskView;
                 WaitKey]),
          if (key =? 113)%Z then Break else Next)
  end.

(** The [while True] loop over the frames the capture delivers. *)
Fixpoint run (mapper : Mapper.PerspectiveMapper) (buffer : Z)
  (inputs : list (Frame * Z)) (st : State) : result State :=
  match inputs with
  | [] => Ok st
  | input :: rest =>
      r <- loop_body mapper buffer st input ;;
      match snd r with
      | Break => Ok (fst r)
      | Next => run mapper buffer rest (fst r)
      end
  end.

(** [main]: [video] is [None] when the capture cannot be opened (the
    function then prints a message and returns); [given] is the [-b]
    option of the command line. *)
Definition main (video : option (list (Frame * Z))) (given : option Z)
  : result (option State) :=
  let buffer := buffer_arg given in
  match video with
  | None => Ok None
  | Some inputs =>
      let mapper := Mapper.init FRAME_WIDTH in
      pts_original <- deque_new buffer ;;
      pts_warped <- deque_new buffer ;;
      st <- run mapper buffer inputs
              (mkState VidStab_new pts_original pts_warped []) ;;
      Ok (Some st)
  end.

(** *** Vocabulary of the properties *)

(** The two trajectories move together: same capacity, and entry by
    entry one is absent exactly when the other is. *)
Definition in_step (st : State) : Prop :=
  maxlen (pts_original st) = maxlen (pts_warped st)
  /\ Forall2 (fun c cw : option point => c = None <-> cw = None)
             (items (pts_original st)) (items (pts_warped st)).

End WithCollaborators.

(** [appendleft] once per item, in the order given. *)
Definition push_all {A : Type} (d : deque A) (xs : list A) : deque A :=
  fold_left appendleft xs d.

End Tracker.

(** ** A small instance of the collaborators, used to run the definitions *)

Module Demo.

(** Twice the signed area, by the shoelace sum over consecutive points. *)
Fixpoint shoelace (first prev : point) (rest : list point) : Z :=
  match rest with
  | [] => (fst prev * snd first - fst first * snd prev)%Z
  | p :: rest' =>
      (fst prev * snd p - fst p * snd prev + shoelace first p rest')%Z
  end.

Definition area2 (c : Contour) : Z :=
  match c with
  | [] => 0%Z
  | p :: rest => Z.abs (shoelace p p rest)
  end.

Definition bounds (c : Contour) : (Z * Z) * (Z * Z) :=
  match c with
  | [] => ((0, 0), (0, 0))%Z
  | p :: rest =>
      fold_left (fun b q =>
                   ((Z.min (fst (fst b)) (fst q), Z.min (snd (fst b)) (snd q)),
                    (Z.max (fst (snd b)) (fst q), Z.max (snd (snd b)) (snd q))))
                rest (p, p)
  end.

(** Centre of the bounding box and a radius that covers every point. *)
Definition circle (c : Contour) : (Q * Q) * Q :=
  let '((x0, y0), (x1, y1)) := bounds c in
  let cx := (x0 + x1) # 2 in
  let cy := (y0 + y1) # 2 in
  let far := fold_left (fun m q =>
               Z.max m ((2 * fst q - (x0 + x1)) ^ 2
                        + (2 * snd q - (y0 + y1)) ^ 2)%Z) c 0%Z in
  ((cx, cy), inject_Z (Z.sqrt far + 1) / 2).

(** Four contours: an octagon of area 700, a strip 100 by 4, an octagon of
    area 11200 and one of area 7. *)
Definition octagon : Contour :=
  [(10, 0); (20, 0); (30, 10); (30, 20); (20, 30); (10, 30); (0, 20); (0, 10)]%Z.

Definition strip : Contour := [(0, 0); (100, 0); (100, 4); (0, 4)]%Z.

Definition big_octagon : Contour :=
  [(40, 0); (80, 0); (120, 40); (120, 80); (80, 120); (40, 120); (0, 80);
   (0, 40)]%Z.

Definition small_octagon : Contour :=
  [(1, 0); (2, 0); (3, 1); (3, 2); (2, 3); (1, 3); (0, 2); (0, 1)]%Z.

Definition is_zero_mask (m : Mask) : bool := forallb (forallb (Z.eqb 0)) m.

Definition centre_moments (c : Contour) : Moments :=
  let '((cx, cy), _) := circle c in
  mkMoments (area2 c # 2) ((area2 c # 2) * cx) ((area2 c # 2) * cy).

(** Filters that leave the frame as it is, a contour finder that reports
    [cnts] in any mask with a set pixel, and the measurements above. *)
Definition cv_with (cnts : list Contour) (mo : Contour -> Moments) : OpenCV := {|
  GaussianBlur := fun f _ _ => f;
  cvtColor_BGR2HSV := fun f => f;
  resize_INTER_AREA := fun f _ => f;
  warpPerspective := fun f _ _ => f;
  findContours_EXTERNAL_SIMPLE := fun m => if is_zero_mask m then [] else cnts;
  contourArea := fun c => area2 c # 2;
  minEnclosingCircle := circle;
  moments := mo
|}.

#[local] Instance cv : OpenCV :=
  cv_with [strip; big_octagon; octagon; small_octagon] centre_moments.

(** The same with contours whose moments all vanish. *)
#[local] Instance cv_flat : OpenCV :=
  cv_with [strip; big_octagon; octagon; small_octagon]
          (fun _ => mkMoments 0 0 0).

(** The same without the one contour that passes the filter. *)
#[local] Instance cv_none : OpenCV :=
  cv_with [strip; big_octagon; small_octagon] centre_moments.

(** A stabilizer that needs one frame of warm-up. *)
#[local] Instance vidstab : Tracker.VidStab := {
  Tracker.Stabilizer := nat;
  Tracker.VidStab_new := 0%nat;
  Tracker.stabilize_frame := fun n f _ =>
    (S n, if (n <? 1)%nat then None else Some f)
}.

Definition red_frame : Frame := repeat (repeat (5, 200, 200)%Z 3) 3.
Definition grey_frame : Frame := repeat (repeat (90, 20, 128)%Z 3) 3.

(** Six frames, each with the key pressed while it is shown; [113] is
    the code of [q]. *)
Definition inputs : list (Frame * Z) :=
  [(red_frame, 0%Z); (red_frame, 0%Z); (grey_frame, 0%Z);
   (red_frame, 0%Z); (red_frame, 113%Z); (grey_frame, 0%Z)].

End Demo.

(** A square root for running [draw_trajectory]: the integer root of the
    integer part. *)
Module DemoDraw.

#[local] Instance np : Trajectory.Numpy := {
  Trajectory.sqrt := fun x => inject_Z (Z.sqrt (Qfloor x))
}.

Definition trail : list (option point) :=
  [Some (5, 5); Some (6, 7); None; Some (9, 9); Some (10, 12); Some (11, 15)]%Z.

End DemoDraw.

(** ** perspective_mapper.py: the quadrilateral and the canvas *)

Module Geometry.

(** Twice the signed area of the triangle [a b p]. *)
Definition cross (a b p : Q * Q) : Q :=
  (fst b - fst a) * (snd p - snd a) - (snd b - snd a) * (fst p - fst a).

(** The sides of a polygon, the last corner joined to the first. *)
Fixpoint sides_from (first prev : Q * Q) (rest : list (Q * Q))
  : list ((Q * Q) * (Q * Q)) :=
  match rest with
  | [] => [(prev, first)]
  | p :: rest' => (prev, p) :: sides_from first p rest'
  end.

Definition sides (corners : list (Q * Q)) : list ((Q * Q) * (Q * Q)) :=
  match corners with
  | [] => []
  | p :: rest => sides_from p p rest
  end.

(** A point of a convex polygon, boundary included, for corners given in
    the order top-left, top-right, bottom-right, bottom-left of an image
    (the y axis points down). *)
Definition inside (corners : list (Q * Q)) (p : Q * Q) : Prop :=
  Forall (fun side => 0 <= cross (fst side) (snd side) p) (sides corners).

(** A position of the real plane within the warped frame. *)
Definition on_canvas (self : Mapper.PerspectiveMapper) (p : Q * Q) : Prop :=
  (0 <= fst p /\ fst p <= inject_Z (Mapper.WARPED_WIDTH self - 1))
  /\ (0 <= snd p /\ snd p <= inject_Z (Mapper.WARPED_HEIGHT self - 1)).


(** A pixel of the warped frame. *)
Definition pixel_on_canvas (self : Mapper.PerspectiveMapper) (p : point)
  : Prop :=
  (0 <= fst p < Mapper.WARPED_WIDTH self
   /\ 0 <= snd p < Mapper.WARPED_HEIGHT self)%Z.


End Geometry.

(** ** ball_detector.py: vocabulary for the cleaned mask *)

Module Morphology.

(** Every pixel is 0 or 255. *)
Definition binary (m : Mask) : Prop :=
  Forall (Forall (fun v : Z => v = 0%Z \/ v = 255%Z)) m.

(** The length of every row, from the top. *)
Definition row_lengths {A : Type} (img : list (list A)) : list nat :=
  map (@length A) img.

(** The pixel of a frame at row [y], column [x]. *)
Definition frame_at (img : Frame) (y x : Z) : option Pixel :=
  if ((y <? 0) || (x <? 0))%Z then None
  else match nth_error img (Z.to_nat y) with
       | Some row => nth_error row (Z.to_nat x)
       | None => None
       end.

(** [a] has no pixel where [b] has none, and is nowhere above [b]. *)
Definition below (a b : Mask) : Prop :=
  forall (y x v : Z),
    pixel_at a y x = Some v ->
    exists u, pixel_at b y x = Some u /\ (v <= u)%Z.

(** The mask of step 2, before erosion and dilation. *)
Definition raw_mask (hsv : Frame) : Mask :=
  bitwise_or (inRange hsv (0, 100, 50)%Z (10, 255, 255)%Z)
             (inRange hsv (170, 100, 50)%Z (179, 255, 255)%Z).

End Morphology.

(** ** main_tracker.py: vocabulary for the event log *)

Module Log.

(** The number of calls of [detect_ball] in a log, that is the number of
    frames that went through the whole loop body. *)
Definition detections (tr : list Tracker.Event) : nat :=
  length (filter (fun e => match e with
                           | Tracker.DetectBall => true
                           | _ => false
                           end) tr).

End Log.

(** * Properties *)

(** ** Python arithmetic *)

Lemma ltb_true (a b : Q) : Py.ltb a b = true <-> a < b.
Proof.
  unfold Py.ltb. rewrite negb_true_iff. split; intro H.
  - apply Qnot_le_lt. intro L. apply Qle_bool_iff in L. congruence.
  - destruct (Qle_bool b a) eqn:E; [|reflexivity].
    apply Qle_bool_iff in E. exfalso. exact (Qlt_not_le _ _ H E).
Qed.

Lemma ltb_false (a b : Q) : Py.ltb a b = false <-> b <= a.
Proof.
  unfold Py.ltb. rewrite negb_false_iff. apply Qle_bool_iff.
Qed.

Lemma div_ok (a b : Q) : ~ b == 0 -> Py.div a b = Ok (a / b).
Proof.
  intro H. unfold Py.div. destruct (Qeq_bool b 0) eqn:E; [|reflexivity].
  apply Qeq_bool_iff in E. contradiction.
Qed.

(** [int] lies between the floor and the ceiling of its argument. *)
Lemma div_opp_sum (n d : Z) : (0 < d -> n / d + (- n) / d <= 0)%Z.
Proof.
  intro Hd.
  pose proof (Z.mod_pos_bound n d Hd) as B1.
  pose proof (Z.mod_pos_bound (- n) d Hd) as B2.
  pose proof (Z.div_mod n d ltac:(lia)) as E1.
  pose proof (Z.div_mod (- n) d ltac:(lia)) as E2.
  set (q1 := (n / d)%Z) in *. set (q2 := ((- n) / d)%Z) in *.
  set (r1 := (n mod d)%Z) in *. set (r2 := ((- n) mod d)%Z) in *.
  assert (E : (d * (q1 + q2) = - (r1 + r2))%Z) by lia.
  nia.
Qed.

Lemma int_between (x : Q) : (Qfloor x <= Py.int x <= Qceiling x)%Z.
Proof.
  destruct x as [n d]. unfold Py.int, Qceiling, Qfloor. cbn [Qnum Qden Qopp].
  assert (Hd : (0 < Zpos d)%Z) by lia.
  pose proof (div_opp_sum n Hd) as Hs.
  destruct (Z.le_gt_cases 0 n) as [Hn | Hn].
  - rewrite Z.quot_div_nonneg by lia. lia.
  - assert (E : (n ÷ Zpos d = - ((- n) / Zpos d))%Z).
    { rewrite <- (Z.opp_involutive n) at 1.
      rewrite Z.quot_opp_l by lia.
      rewrite Z.quot_div_nonneg by lia. reflexivity. }
    rewrite E. lia.
Qed.

(** A computed coordinate less than one away from an integer truncates to
    that integer or to a neighbour of it. *)
Lemma int_near (x : Q) (z : Z) :
  inject_Z z - 1 < x -> x < inject_Z z + 1 -> (Z.abs (Py.int x - z) <= 1)%Z.
Proof.
  intros Hlo Hhi.
  pose proof (int_between x) as [Hf Hc].
  assert (Lf : (z - 1 <= Qfloor x)%Z).
  { rewrite <- (Qfloor_Z (z - 1)). apply Qfloor_resp_le.
    unfold Z.sub. rewrite inject_Z_plus. apply Qlt_le_weak. exact Hlo. }
  assert (Lc : (Qceiling x <= z + 1)%Z).
  { rewrite <- (Qceiling_Z (z + 1)). apply Qceiling_resp_le.
    rewrite inject_Z_plus. apply Qlt_le_weak. exact Hhi. }
  lia.
Qed.

Lemma int_tolerance (exact computed : Q) (z : Z) :
  exact == inject_Z z -> Qabs (computed - exact) < 1 ->
  (Z.abs (Py.int computed - z) <= 1)%Z.
Proof.
  intros E H. apply Qabs_Qlt_condition in H. destruct H as [Hlo Hhi].
  apply int_near; lra.
Qed.

(** ** perspective_mapper.py *)

Section MapperFacts.

Let mapper := Mapper.init Tracker.FRAME_WIDTH.

(** The matrix [__init__] stores: the linear system is regular. *)
Lemma init_matrix :
  Mapper.getPerspectiveTransform (Mapper.pts_src mapper) (Mapper.pts_dst mapper)
  = Some (Mapper.M mapper)
  /\ Mapper.M mapper
     = mkMatrix (19551 # 8200) (399 # 1025) (-231021 # 410)
                0 (8091 # 2050) (-16182 # 41)
                0 (2 # 1025) 1.
Proof. split; vm_compute; reflexivity. Qed.

(** C1: each of the four configured source corners, (220,100), (420,100),
    (500,590) and (140,590), is sent by [transform_point] to the matching
    corner of the destination rectangle, (0,0), (399,0), (399,899) and
    (0,899).  The untruncated image is that corner exactly, and a computed
    image less than one away from it still truncates to within one of the
    corner. *)
Theorem C1_source_corners_reach_rectangle :
  Mapper.pts_src mapper = [(220, 100); (420, 100); (500, 590); (140, 590)]
  /\ map (fun s => Mapper.transform_point mapper (Some s))
         (Mapper.pts_src mapper)
     = [Some (0, 0); Some (399, 0); Some (399, 899); Some (0, 899)]%Z
  /\ Forall2 (fun s d =>
                fst (Mapper.perspectiveTransform (Mapper.M mapper) s) == fst d
                /\ snd (Mapper.perspectiveTransform (Mapper.M mapper) s) == snd d)
             (Mapper.pts_src mapper) (Mapper.pts_dst mapper)
  /\ Forall2 (fun s d =>
                forall fx fy : Q,
                  Qabs (fx - fst (Mapper.perspectiveTransform (Mapper.M mapper) s)) < 1 ->
                  Qabs (fy - snd (Mapper.perspectiveTransform (Mapper.M mapper) s)) < 1 ->
                  Mapper.within_rounding (Py.int fx, Py.int fy)
                                         (Py.int (fst d), Py.int (snd d)))
             (Mapper.pts_src mapper) (Mapper.pts_dst mapper).
Proof.
  split; [reflexivity|]. split; [vm_compute; reflexivity|]. split.
  - repeat constructor; vm_compute; reflexivity.
  - repeat (apply Forall2_cons || apply Forall2_nil);
      intros fx fy Hx Hy; split; cbn [fst snd];
      (eapply int_tolerance; [|eassumption]); vm_compute; reflexivity.
Qed.

(** *** The same method within the range of the floats *)











(** No clamping: a point left of the source quadrilateral lands left of
    the destination rectangle. *)
Example transform_point_outside :
  Mapper.transform_point mapper (Some (0, 590)) = Some (-155, 899)%Z.
Proof. vm_compute. reflexivity. Qed.

End MapperFacts.



(** ** ball_detector.py *)

Section DetectorFacts.

Context {cv : OpenCV}.

Import Detector.

Lemma circle_area_nonzero (r : Q) : ~ r == 0 -> ~ Py.math_pi * r ^ 2 == 0.
Proof.
  intros Hr E. apply Qmult_integral in E. destruct E as [E | E].
  - vm_compute in E. discriminate.
  - change (r ^ 2) with (r * r) in E.
    apply Qmult_integral in E. tauto.
Qed.

(** The loop keeps its accumulator when the contour is no improvement. *)
Lemma loop_inv_skip seen acc c :
  loop_inv seen acc ->
  (qualifies c ->
   match fst acc with
   | None => False
   | Some b => contourArea c <= contourArea b
   end) ->
  loop_inv (seen ++ [c]) acc.
Proof.
  unfold loop_inv. destruct acc as [[b|] m]; cbn [fst snd]; intros I S.
  - destruct I as (Hb & Qb & Hm & Hmax).
    split; [apply in_or_app; now left|]. split; [exact Qb|]. split; [exact Hm|].
    intros c' Hin Qc'. apply in_app_or in Hin. destruct Hin as [Hin | [<- | []]]; auto.
  - destruct I as (Hm & Hno). split; auto.
    intros c' Hin Qc'. apply in_app_or in Hin. destruct Hin as [Hin | [<- | []]].
    + exact (Hno c' Hin Qc').
    + exact (S Qc').
Qed.

(** The loop takes a qualifying contour whose area beats [max_area]. *)
Lemma loop_inv_take seen acc c :
  loop_inv seen acc -> qualifies c -> snd acc < contourArea c ->
  loop_inv (seen ++ [c]) (Some c, contourArea c).
Proof.
  unfold loop_inv. destruct acc as [[b|] m]; cbn [fst snd]; intros I Qc Lt.
  - destruct I as (Hb & Qb & Hm & Hmax). subst m.
    split; [apply in_or_app; right; now left|]. split; [exact Qc|].
    split; [reflexivity|].
    intros c' Hin Qc'. apply in_app_or in Hin. destruct Hin as [Hin | [<- | []]].
    + specialize (Hmax c' Hin Qc'). lra.
    + lra.
  - destruct I as (Hm & Hno).
    split; [apply in_or_app; right; now left|]. split; [exact Qc|].
    split; [reflexivity|].
    intros c' Hin Qc'. apply in_app_or in Hin. destruct Hin as [Hin | [<- | []]].
    + destruct (Hno c' Hin Qc').
    + lra.
Qed.

(** One pass of the loop body never raises and keeps the invariant. *)
Lemma filter_body_inv seen acc c :
  loop_inv seen acc ->
  exists acc', filter_body acc c = Ok acc' /\ loop_inv (seen ++ [c]) acc'.
Proof.
  intro I. unfold filter_body. destruct acc as [best m].
  destruct (Py.ltb (contourArea c) 100) eqn:Esmall.
  { eexists; split; [reflexivity|]. apply loop_inv_skip; auto.
    intros (Q1 & _). apply ltb_true in Esmall. lra. }
  apply ltb_false in Esmall.
  assert (Er : radius_of c = snd (minEnclosingCircle c)) by reflexivity.
  destruct (minEnclosingCircle c) as [ctr radius]. cbn [snd] in Er.
  destruct (Qeq_bool radius 0) eqn:Ezero.
  { eexists; split; [reflexivity|]. apply loop_inv_skip; auto.
    intros (_ & Q2 & _). apply Qeq_bool_iff in Ezero. rewrite Er in Q2. tauto. }
  apply Qeq_bool_neq in Ezero.
  rewrite (div_ok _ (circle_area_nonzero Ezero)). cbn [Py.bind].
  assert (Ec : circularity c = contourArea c / (Py.math_pi * radius ^ 2)).
  { unfold circularity. rewrite Er. reflexivity. }
  rewrite <- Ec.
  destruct (Py.ltb (7 # 10) (circularity c)) eqn:Ecirc.
  2:{ eexists; split; [reflexivity|]. apply loop_inv_skip; auto.
      intros (_ & _ & Q3 & _). apply ltb_false in Ecirc. lra. }
  apply ltb_true in Ecirc.
  destruct (Py.ltb m (contourArea c)) eqn:Emax; cbn [andb].
  2:{ eexists; split; [reflexivity|]. apply loop_inv_skip; auto.
      intros _. apply ltb_false in Emax. unfold loop_inv in I.
      cbn [fst snd] in *. destruct best as [b|].
      - destruct I as (_ & _ & -> & _). exact Emax.
      - destruct I as (-> & _). lra. }
  apply ltb_true in Emax.
  destruct (Py.ltb (contourArea c) 8000) eqn:Ebig.
  2:{ eexists; split; [reflexivity|]. apply loop_inv_skip; auto.
      intros (_ & _ & _ & Q4). apply ltb_false in Ebig. lra. }
  apply ltb_true in Ebig.
  eexists; split; [reflexivity|].
  apply loop_inv_take with (acc := (best, m)); auto.
  split; [exact Esmall|]. split; [rewrite Er; exact Ezero|].
  split; [exact Ecirc | exact Ebig].
Qed.

Lemma for_each_filter_inv cnts : forall seen acc,
  loop_inv seen acc ->
  exists acc', Py.for_each filter_body cnts acc = Ok acc'
               /\ loop_inv (seen ++ cnts) acc'.
Proof.
  induction cnts as [|c cnts IH]; intros seen acc I.
  - exists acc. rewrite app_nil_r. split; [reflexivity | exact I].
  - destruct (@filter_body_inv seen acc c I) as (acc1 & E1 & I1).
    destruct (IH _ _ I1) as (acc2 & E2 & I2).
    exists acc2. cbn [Py.for_each]. rewrite E1. cbn [Py.bind].
    rewrite <- app_assoc in I2. split; assumption.
Qed.

(** The selection loop returns, and what it returns is described by
    [loop_inv] on the whole contour list. *)
Lemma select_best_spec (cnts : list Contour) :
  exists acc, select_best cnts = Ok acc /\ loop_inv cnts acc.
Proof.
  apply for_each_filter_inv with (seen := []) (acc := (None, 0)).
  split; [reflexivity|]. intros c [].
Qed.

(** [detect_ball] always returns; its result is fixed by the selection. *)
Lemma detect_ball_cases (frame : Frame) :
  exists acc,
    select_best (findContours_EXTERNAL_SIMPLE (cleaned_mask frame)) = Ok acc
    /\ loop_inv (findContours_EXTERNAL_SIMPLE (cleaned_mask frame)) acc
    /\ detect_ball frame
       = match fst acc with
         | Some b =>
             if Qeq_bool (m00 (moments b)) 0
             then Ok (None, 0, cleaned_mask frame)
             else Ok (Some (centroid b), radius_of b, cleaned_mask frame)
         | None => Ok (None, 0, cleaned_mask frame)
         end.
Proof.
  destruct (select_best_spec (findContours_EXTERNAL_SIMPLE (cleaned_mask frame)))
    as (acc & E & I).
  exists acc. split; [exact E|]. split; [exact I|].
  unfold detect_ball. rewrite E. cbn [Py.bind].
  destruct (fst acc) as [b|]; [|reflexivity].
  unfold radius_of, centroid.
  destruct (minEnclosingCircle b) as [ctr radius]. cbn [snd].
  destruct (Qeq_bool (m00 (moments b)) 0) eqn:E0; cbn [negb]; [reflexivity|].
  apply Qeq_bool_neq in E0.
  rewrite !(div_ok _ E0). reflexivity.
Qed.

(** *** Masks without red *)

Lemma within_red1 px : within (0, 100, 50)%Z (10, 255, 255)%Z px = true -> is_red px.
Proof.
  destruct px as [[h s] v]. unfold within, is_red.
  rewrite !andb_true_iff, !Z.leb_le. lia.
Qed.

Lemma within_red2 px : within (170, 100, 50)%Z (179, 255, 255)%Z px = true -> is_red px.
Proof.
  destruct px as [[h s] v]. unfold within, is_red.
  rewrite !andb_true_iff, !Z.leb_le. lia.
Qed.

Lemma inRange_zero (img : Frame) (lo hi : Pixel) :
  (forall px, within lo hi px = true -> is_red px) ->
  Forall (Forall (fun px => ~ is_red px)) img ->
  all_zero (inRange img lo hi).
Proof.
  intros Hw H. unfold all_zero, inRange.
  apply Forall_map. eapply Forall_impl; [|exact H].
  intros row Hrow. apply Forall_map. eapply Forall_impl; [|exact Hrow].
  intros px Hpx. cbv beta. destruct (within lo hi px) eqn:E; [|reflexivity].
  destruct (Hpx (Hw px E)).
Qed.

Lemma zip_with_lor_zero (a b : list Z) :
  Forall (eq 0%Z) a -> Forall (eq 0%Z) b -> Forall (eq 0%Z) (zip_with Z.lor a b).
Proof.
  intro Ha. revert b. induction Ha as [|x a Hx Ha IH]; intros b Hb.
  - constructor.
  - destruct Hb as [|y b Hy Hb]; cbn [zip_with]; constructor; auto.
    subst. reflexivity.
Qed.

Lemma bitwise_or_zero (a b : Mask) :
  all_zero a -> all_zero b -> all_zero (bitwise_or a b).
Proof.
  unfold all_zero, bitwise_or. intro Ha. revert b.
  induction Ha as [|r a Hr Ha IH]; intros b Hb.
  - constructor.
  - destruct Hb as [|r' b Hr' Hb]; cbn [zip_with]; constructor; auto.
    apply zip_with_lor_zero; assumption.
Qed.

Lemma Forall_mapi_from {A B : Type} (P : B -> Prop) (f : nat -> A -> B)
  (l : list A) : forall i,
  (forall j a, nth_error l j = Some a -> P (f (i + j)%nat a)) ->
  Forall P (mapi_from i f l).
Proof.
  induction l as [|a l IH]; intros i H; cbn [mapi_from]; constructor.
  - specialize (H 0%nat a eq_refl). rewrite Nat.add_0_r in H. exact H.
  - apply IH. intros j b Hj. specialize (H (S j) b Hj).
    rewrite Nat.add_succ_r in H. exact H.
Qed.

Lemma pixel_at_zero (m : Mask) (y x v : Z) :
  all_zero m -> pixel_at m y x = Some v -> v = 0%Z.
Proof.
  unfold all_zero, pixel_at. intros Hm H.
  destruct ((y <? 0) || (x <? 0))%Z; [discriminate|].
  destruct (nth_error m (Z.to_nat y)) as [row|] eqn:Er; [|discriminate].
  apply nth_error_In in Er, H.
  rewrite Forall_forall in Hm. specialize (Hm row Er).
  rewrite Forall_forall in Hm. symmetry. exact (Hm v H).
Qed.

Lemma pixel_at_centre (m : Mask) (y x : nat) (row : list Z) (v : Z) :
  nth_error m y = Some row -> nth_error row x = Some v ->
  pixel_at m (Z.of_nat y + 0) (Z.of_nat x + 0) = Some v.
Proof.
  intros Hr Hv. unfold pixel_at. rewrite !Z.add_0_r.
  replace ((Z.of_nat y <? 0) || (Z.of_nat x <? 0))%Z with false
    by (symmetry; apply orb_false_iff; split; apply Z.ltb_ge; lia).
  rewrite !Nat2Z.id, Hr. exact Hv.
Qed.

Lemma neighbourhood_zero kernel (m : Mask) (y x : nat) :
  all_zero m -> Forall (eq 0%Z) (neighbourhood kernel m y x).
Proof.
  intro Hm. apply Forall_forall. intros v Hv.
  unfold neighbourhood in Hv. apply in_flat_map in Hv.
  destruct Hv as (d & _ & Hv).
  destruct (pixel_at m (Z.of_nat y + fst d) (Z.of_nat x + snd d)) as [w|] eqn:E;
    [|destruct Hv].
  destruct Hv as [<- | []]. symmetry. exact (@pixel_at_zero m _ _ w Hm E).
Qed.

Lemma fold_min_zero (l : list Z) :
  Forall (eq 0%Z) l -> l <> [] -> fold_right Z.min 255%Z l = 0%Z.
Proof.
  intros H Hne.
  assert (B : (0 <= fold_right Z.min 255 l)%Z).
  { clear Hne. induction H as [|a l <- _ IH]; cbn [fold_right]; lia. }
  destruct H as [|a l <- H]; [congruence|].
  cbn [fold_right].
  assert (B' : (0 <= fold_right Z.min 255 l)%Z).
  { clear B Hne. induction H as [|a l <- _ IH]; cbn [fold_right]; lia. }
  lia.
Qed.

Lemma fold_max_zero (l : list Z) :
  Forall (eq 0%Z) l -> fold_right Z.max 0%Z l = 0%Z.
Proof.
  induction 1 as [|a l <- _ IH]; cbn [fold_right]; lia.
Qed.

Lemma erode_once_zero kernel (m : Mask) :
  In (0, 0)%Z (kernel_offsets kernel) ->
  all_zero m -> all_zero (erode_once kernel m).
Proof.
  intros Hk Hm. unfold all_zero, erode_once, mapi.
  apply Forall_mapi_from. intros y row Hrow.
  apply Forall_mapi_from. intros x v Hv. cbn [Nat.add]. symmetry.
  apply fold_min_zero; [apply neighbourhood_zero; exact Hm|].
  intro Hnil.
  assert (Hin : In v (neighbourhood kernel m y x)).
  { unfold neighbourhood. apply in_flat_map. exists (0, 0)%Z.
    split; [exact Hk|]. cbn [fst snd].
    rewrite (@pixel_at_centre m y x row v Hrow Hv). now left. }
  rewrite Hnil in Hin. destruct Hin.
Qed.

Lemma dilate_once_zero kernel (m : Mask) :
  all_zero m -> all_zero (dilate_once kernel m).
Proof.
  intro Hm. unfold all_zero, dilate_once, mapi.
  apply Forall_mapi_from. intros y row _.
  apply Forall_mapi_from. intros x v _. symmetry.
  apply fold_max_zero, neighbourhood_zero, Hm.
Qed.

Lemma centre_in_kernel : In (0, 0)%Z (kernel_offsets (np_ones 5 5)).
Proof. apply nth_error_In with (n := 12%nat). reflexivity. Qed.

(** A frame without a red pixel after blur and conversion has an all-zero
    cleaned mask. *)
Lemma cleaned_mask_zero (frame : Frame) :
  Forall (Forall (fun px => ~ is_red px)) (hsv_of frame) ->
  all_zero (cleaned_mask frame).
Proof.
  intro H. unfold cleaned_mask, dilate, erode. cbn [Nat.iter].
  do 2 apply dilate_once_zero.
  do 2 (apply erode_once_zero; [exact centre_in_kernel|]).
  apply bitwise_or_zero; apply inRange_zero; auto using within_red1, within_red2.
Qed.

(** C2: when [detect_ball] returns a centre, it is the centre of an
    extracted contour with area at least 100, non-zero enclosing radius,
    circularity above 0.7 and area below 8000, and no contour meeting
    these four constraints has a larger area; so a contour of area 8000
    or more, or of circularity 0.7 or less, is never the one selected. *)
Theorem C2_detection_is_best_qualifying (frame : Frame) (center : point)
  (radius : Q) (mask : Mask) :
  detect_ball frame = Ok (Some center, radius, mask) ->
  exists c,
    In c (findContours_EXTERNAL_SIMPLE (cleaned_mask frame))
    /\ qualifies c
    /\ (forall c', In c' (findContours_EXTERNAL_SIMPLE (cleaned_mask frame)) ->
                   qualifies c' -> contourArea c' <= contourArea c)
    /\ center = centroid c /\ radius = radius_of c.
Proof.
  destruct (detect_ball_cases frame) as (acc & _ & I & ->).
  unfold loop_inv in I. destruct (fst acc) as [b|]; [|discriminate].
  destruct (Qeq_bool (m00 (moments b)) 0); [discriminate|].
  intro E. injection E as <- <- _.
  destruct I as (Hin & Hq & _ & Hmax).
  exists b. auto.
Qed.

(** C3: if no pixel of the blurred HSV image is in a red range, the
    result is no centre, radius zero and an all-zero mask (contour
    extraction finds nothing in an all-zero mask). *)
Theorem C3_no_red_pixel_no_detection (frame : Frame) :
  (forall m, all_zero m -> findContours_EXTERNAL_SIMPLE m = []) ->
  Forall (Forall (fun px => ~ is_red px)) (hsv_of frame) ->
  exists mask, detect_ball frame = Ok (None, 0, mask) /\ all_zero mask.
Proof.
  intros Hfc Hred. pose proof (cleaned_mask_zero frame Hred) as Hz.
  exists (cleaned_mask frame). split; [|exact Hz].
  unfold detect_ball. rewrite (Hfc _ Hz). reflexivity.
Qed.

(** C4: once the loop has selected a contour, the centre returned is the
    truncated centroid (M10/M00, M01/M00) of that contour, with its
    enclosing-circle radius; when M00 is zero the result is no detection. *)
Theorem C4_centroid_of_selected (frame : Frame) (c : Contour) (a : Q) :
  select_best (findContours_EXTERNAL_SIMPLE (cleaned_mask frame))
  = Ok (Some c, a) ->
  (~ m00 (moments c) == 0 ->
   detect_ball frame
   = Ok (Some (Py.int (m10 (moments c) / m00 (moments c)),
               Py.int (m01 (moments c) / m00 (moments c))),
         snd (minEnclosingCircle c), cleaned_mask frame))
  /\ (m00 (moments c) == 0 ->
      detect_ball frame = Ok (None, 0, cleaned_mask frame)).
Proof.
  intro E.
  destruct (detect_ball_cases frame) as (acc & E' & _ & ->).
  rewrite E in E'. injection E' as <-. cbn [fst].
  split; intro H0.
  - destruct (Qeq_bool (m00 (moments c)) 0) eqn:Eb; [|reflexivity].
    apply Qeq_bool_iff in Eb. contradiction.
  - apply Qeq_bool_iff in H0. rewrite H0. reflexivity.
Qed.

(** C7: [detect_ball] raises nothing and always returns the cleaned mask;
    without a qualifying contour the result is no centre with radius
    zero, and no centre always comes with radius zero. *)
Theorem C7_always_returns_mask (frame : Frame) :
  exists center radius,
    detect_ball frame = Ok (center, radius, cleaned_mask frame)
    /\ ((forall c, In c (findContours_EXTERNAL_SIMPLE (cleaned_mask frame)) ->
                   ~ qualifies c) -> center = None /\ radius = 0)
    /\ (center = None -> radius = 0).
Proof.
  destruct (detect_ball_cases frame) as (acc & _ & I & ->).
  unfold loop_inv in I. destruct (fst acc) as [b|].
  - destruct I as (Hin & Hq & _).
    destruct (Qeq_bool (m00 (moments b)) 0).
    + exists None, 0. auto.
    + exists (Some (centroid b)), (radius_of b).
      split; [reflexivity|]. split.
      * intro Hno. destruct (Hno b Hin Hq).
      * discriminate.
  - exists None, 0. auto.
Qed.

(** C9: the radius returned is strictly positive exactly when a centre is
    returned (the enclosing-circle radius is never negative). *)
Theorem C9_radius_positive_iff_center (frame : Frame)
  (center : option point) (radius : Q) (mask : Mask) :
  (forall c, 0 <= snd (minEnclosingCircle c)) ->
  detect_ball frame = Ok (center, radius, mask) ->
  (0 < radius <-> center <> None).
Proof.
  intro Hnn.
  destruct (detect_ball_cases frame) as (acc & _ & I & ->).
  unfold loop_inv in I.
  assert (Z0 : ~ 0 < 0) by (intro L; exact (Qlt_irrefl 0 L)).
  destruct (fst acc) as [b|].
  - destruct I as (_ & (_ & Hr & _) & _).
    destruct (Qeq_bool (m00 (moments b)) 0); intro E; injection E as <- <- _.
    + split; [intro L; destruct (Z0 L) | congruence].
    + split; [discriminate|]. intros _.
      specialize (Hnn b). fold (radius_of b) in Hnn.
      apply Qle_lteq in Hnn. destruct Hnn as [L | Eq]; [exact L|].
      destruct Hr. symmetry. exact Eq.
  - intro E; injection E as <- <- _.
    split; [intro L; destruct (Z0 L) | congruence].
Qed.

End DetectorFacts.

(** *** The detector on the sample instance *)

Lemma demo_findContours_zero :
  forall m, Detector.all_zero m ->
            @findContours_EXTERNAL_SIMPLE Demo.cv m = [].
Proof.
  intros m Hm. cbn.
  replace (Demo.is_zero_mask m) with true; [reflexivity|].
  symmetry. unfold Demo.is_zero_mask. apply forallb_forall. intros row Hrow.
  apply forallb_forall. intros v Hv. apply Z.eqb_eq.
  unfold Detector.all_zero in Hm. rewrite Forall_forall in Hm.
  specialize (Hm row Hrow). rewrite Forall_forall in Hm. exact (Hm v Hv).
Qed.

Lemma demo_radius_nonneg :
  forall c, 0 <= snd (@minEnclosingCircle Demo.cv c).
Proof.
  intro c. change (0 <= snd (Demo.circle c)). unfold Demo.circle.
  destruct (Demo.bounds c) as [[x0 y0] [x1 y1]]. cbn [snd].
  match goal with |- context [Z.sqrt ?f] => pose proof (Z.sqrt_nonneg f) as Hs end.
  apply Qle_shift_div_l; [reflexivity|].
  rewrite Qmult_0_l. change 0 with (inject_Z 0). rewrite <- Zle_Qle. lia.
Qed.

Lemma C2_detection_is_best_qualifying_witness :
  exists c,
    In c (@findContours_EXTERNAL_SIMPLE Demo.cv
            (@Detector.cleaned_mask Demo.cv Demo.red_frame))
    /\ @Detector.qualifies Demo.cv c
    /\ (forall c',
          In c' (@findContours_EXTERNAL_SIMPLE Demo.cv
                   (@Detector.cleaned_mask Demo.cv Demo.red_frame)) ->
          @Detector.qualifies Demo.cv c' ->
          @contourArea Demo.cv c' <= @contourArea Demo.cv c)
    /\ (15, 15)%Z = @Detector.centroid Demo.cv c
    /\ 32 # 2 = @Detector.radius_of Demo.cv c.
Proof.
  apply (@C2_detection_is_best_qualifying Demo.cv Demo.red_frame (15, 15)%Z
           (32 # 2) (repeat (repeat 255%Z 3) 3)).
  vm_compute. reflexivity.
Defined.

Lemma C3_no_red_pixel_no_detection_witness :
  exists mask,
    @Detector.detect_ball Demo.cv Demo.grey_frame = Ok (None, 0, mask)
    /\ Detector.all_zero mask.
Proof.
  apply (@C3_no_red_pixel_no_detection Demo.cv Demo.grey_frame).
  - exact demo_findContours_zero.
  - repeat constructor; unfold Detector.is_red; lia.
Defined.

Lemma C4_centroid_of_selected_witness :
  @Detector.detect_ball Demo.cv Demo.red_frame
  = Ok (Some (15, 15)%Z, 32 # 2, repeat (repeat 255%Z 3) 3)
  /\ @Detector.detect_ball Demo.cv_flat Demo.red_frame
     = Ok (None, 0, repeat (repeat 255%Z 3) 3).
Proof.
  split.
  - destruct (@C4_centroid_of_selected Demo.cv Demo.red_frame Demo.octagon (1400 # 2))
      as [H _]; [vm_compute; reflexivity|].
    rewrite H; [vm_compute; reflexivity|].
    vm_compute. discriminate.
  - destruct (@C4_centroid_of_selected Demo.cv_flat Demo.red_frame Demo.octagon (1400 # 2))
      as [_ H]; [vm_compute; reflexivity|].
    rewrite H; [vm_compute; reflexivity|].
    vm_compute. reflexivity.
Defined.

(** A strip, an octagon of area 11200 and one of area 7 are all passed
    over. *)
Example detect_ball_rejects :
  @Detector.detect_ball Demo.cv_none Demo.red_frame
  = Ok (None, 0, repeat (repeat 255%Z 3) 3).
Proof. vm_compute. reflexivity. Qed.

Lemma C9_radius_positive_iff_center_witness :
  (0 < 32 # 2 <-> Some (15, 15)%Z <> None)
  /\ (0 < 0 <-> @None point <> None).
Proof.
  split.
  - apply (@C9_radius_positive_iff_center Demo.cv Demo.red_frame
             (Some (15, 15)%Z) (32 # 2) (repeat (repeat 255%Z 3) 3)).
    + exact demo_radius_nonneg.
    + vm_compute. reflexivity.
  - apply (@C9_radius_positive_iff_center Demo.cv Demo.grey_frame
             None 0 (repeat (repeat 0%Z 3) 3)).
    + exact demo_radius_nonneg.
    + vm_compute. reflexivity.
Defined.

(** ** main_tracker.py *)

Section DequeFacts.

Import Tracker.

Context {A : Type}.

Lemma firstn_cons_firstn (n : nat) (x : A) (l : list A) :
  firstn n (x :: firstn n l) = firstn n (x :: l).
Proof.
  destruct n as [|k]; [reflexivity|]. rewrite !firstn_cons. f_equal.
  rewrite firstn_firstn. f_equal. lia.
Qed.

(** On a deque within its capacity, [appendleft] keeps the [maxlen] most
    recent items. *)
Lemma appendleft_items (d : deque A) (x : A) :
  (length (items d) <= maxlen d)%nat ->
  items (appendleft d x) = firstn (maxlen d) (x :: items d).
Proof.
  intro Hlen. unfold appendleft. cbn [items].
  destruct (maxlen d <? length (x :: items d))%nat eqn:E.
  - apply Nat.ltb_lt in E. cbn [length] in E.
    rewrite removelast_firstn_len. cbn [length Nat.pred].
    f_equal. lia.
  - apply Nat.ltb_ge in E. symmetry. apply firstn_all2. exact E.
Qed.

Lemma appendleft_maxlen (d : deque A) (x : A) :
  maxlen (appendleft d x) = maxlen d.
Proof. reflexivity. Qed.

Lemma push_all_spec (xs : list A) : forall (d : deque A) (earlier : list A),
  items d = firstn (maxlen d) (rev earlier) ->
  maxlen (push_all d xs) = maxlen d
  /\ items (push_all d xs) = firstn (maxlen d) (rev (earlier ++ xs)).
Proof.
  induction xs as [|x xs IH]; intros d earlier Hd; cbn [push_all fold_left].
  - rewrite app_nil_r. split; [reflexivity | exact Hd].
  - assert (Hlen : (length (items d) <= maxlen d)%nat).
    { rewrite Hd. apply firstn_le_length. }
    destruct (IH (appendleft d x) (earlier ++ [x])) as (Hm & Hi).
    + rewrite appendleft_maxlen, (@appendleft_items d x Hlen), Hd.
      rewrite firstn_cons_firstn, rev_app_distr. reflexivity.
    + unfold push_all in Hm, Hi. rewrite Hm, Hi, appendleft_maxlen, <- app_assoc.
      split; reflexivity.
Qed.

Lemma push_all_app (d : deque A) (xs ys : list A) :
  push_all (push_all d xs) ys = push_all d (xs ++ ys).
Proof. unfold push_all. symmetry. apply fold_left_app. Qed.

End DequeFacts.

Section TrackerFacts.

Import Tracker.

Context {cv : OpenCV} {vidstab : VidStab} {np : Trajectory.Numpy}.

Lemma detect_ball_total (frame : Frame) :
  exists center radius,
    Detector.detect_ball frame
    = Ok (center, radius, Detector.cleaned_mask frame).
Proof.
  destruct (detect_ball_cases frame) as (acc & _ & _ & ->).
  destruct (fst acc) as [b|]; [|eauto].
  destruct (Qeq_bool (m00 (moments b)) 0); eauto.
Qed.

Lemma warp_center_none (mapper : Mapper.PerspectiveMapper)
  (center : option point) :
  center = None <-> warp_center mapper center = None.
Proof.
  destruct center as [[x y]|]; cbn; split; congruence.
Qed.

(** What one iteration does to the two trajectories. *)
Lemma loop_body_cases mapper buffer st input st' ctl :
  loop_body mapper buffer st input = Ok (st', ctl) ->
  (pts_original st' = pts_original st /\ pts_warped st' = pts_warped st
   /\ trace st' = trace st /\ ctl = Next)
  \/ (exists center,
        pts_original st' = appendleft (pts_original st) center
        /\ pts_warped st'
           = appendleft (pts_warped st) (warp_center mapper center)).
Proof.
  destruct input as [frame pressed]. unfold loop_body.
  destruct (resize_to_width frame) as [frame'|e]; [|discriminate].
  cbn [Py.bind].
  destruct (stabilize_frame (stabilizer st) frame' SMOOTHING_WINDOW)
    as [s' [fs|]].
  - destruct (detect_ball_total fs) as (center & radius & ->).
    cbn [Py.bind].
    destruct (Trajectory.draw_trajectory _ _ _) as [lines1|e];
      [|discriminate].
    cbn [Py.bind].
    destruct (Trajectory.draw_trajectory _ _ _) as [lines2|e];
      [|discriminate].
    cbn [Py.bind]. intro E. injection E as <- _.
    right. exists center. split; reflexivity.
  - intro E. injection E as <- <-. left. cbn. auto.
Qed.

Lemma Forall2_removelast {X Y : Type} (R : X -> Y -> Prop) (l1 : list X)
  (l2 : list Y) :
  Forall2 R l1 l2 -> Forall2 R (removelast l1) (removelast l2).
Proof.
  induction 1 as [|x y l1 l2 Hxy H IH]; [constructor|].
  destruct H as [|x' y' l1' l2' Hxy' H']; [constructor|].
  change (Forall2 R (x :: removelast (x' :: l1')) (y :: removelast (y' :: l2'))).
  constructor; assumption.
Qed.

Lemma in_step_loop_body mapper buffer st input st' ctl :
  in_step st -> loop_body mapper buffer st input = Ok (st', ctl) ->
  in_step st'.
Proof.
  intros (Hm & Hf) E. apply loop_body_cases in E.
  destruct E as [(Eo & Ew & _) | (center & Eo & Ew)]; unfold in_step;
    rewrite Eo, Ew; [split; assumption|].
  unfold appendleft. cbn [maxlen items]. split; [exact Hm|].
  pose proof (Forall2_length Hf) as Hl.
  assert (Hc : Forall2 (fun c cw : option point => c = None <-> cw = None)
                 (center :: items (pts_original st))
                 (warp_center mapper center :: items (pts_warped st))).
  { constructor; [apply warp_center_none | exact Hf]. }
  cbn [length]. rewrite <- Hm, <- Hl.
  destruct (maxlen (pts_original st) <? S (length (items (pts_original st))))%nat.
  - apply Forall2_removelast. exact Hc.
  - exact Hc.
Qed.

Lemma in_step_run mapper buffer inputs : forall st st',
  in_step st -> run mapper buffer inputs st = Ok st' -> in_step st'.
Proof.
  induction inputs as [|input rest IH]; intros st st' I E; cbn [run] in E.
  - injection E as <-. exact I.
  - destruct (loop_body mapper buffer st input) as [[st1 ctl]|e] eqn:E1;
      [|discriminate].
    cbn [Py.bind fst snd] in E.
    assert (I1 : in_step st1) by (eapply in_step_loop_body; eassumption).
    destruct ctl.
    + eapply IH; eassumption.
    + injection E as <-. exact I1.
Qed.

(** The trajectories after a run are the trajectories before it with some
    entries pushed, as many on one as on the other. *)
Lemma run_pushes mapper buffer inputs : forall st st',
  run mapper buffer inputs st = Ok st' ->
  exists xs ys,
    length xs = length ys
    /\ pts_original st' = push_all (pts_original st) xs
    /\ pts_warped st' = push_all (pts_warped st) ys.
Proof.
  induction inputs as [|input rest IH]; intros st st' E; cbn [run] in E.
  - injection E as <-. exists [], []. auto.
  - destruct (loop_body mapper buffer st input) as [[st1 ctl]|e] eqn:E1;
      [|discriminate].
    cbn [Py.bind fst snd] in E.
    assert (H1 : exists xs ys, length xs = length ys
                   /\ pts_original st1 = push_all (pts_original st) xs
                   /\ pts_warped st1 = push_all (pts_warped st) ys).
    { apply loop_body_cases in E1.
      destruct E1 as [(Eo & Ew & _) | (center & Eo & Ew)].
      - exists [], []. auto.
      - exists [center], [warp_center mapper center]. auto. }
    destruct H1 as (xs & ys & Hl & Ho & Hw).
    destruct ctl.
    + apply IH in E. destruct E as (xs' & ys' & Hl' & Ho' & Hw').
      exists (xs ++ xs'), (ys ++ ys').
      rewrite Ho', Hw', Ho, Hw, !push_all_app, !length_app. auto.
    + injection E as <-. exists xs, ys. auto.
Qed.

Lemma deque_new_ok {A : Type} (n : Z) (d : deque A) :
  deque_new n = Ok d ->
  (0 <= n < 2 ^ 63)%Z /\ d = mkDeque (Z.to_nat n) [].
Proof.
  unfold deque_new.
  destruct ((n <? - 2 ^ 63) || (2 ^ 63 <=? n))%Z eqn:E1; [discriminate|].
  destruct (n <? 0)%Z eqn:E2; [discriminate|].
  intro E. injection E as <-.
  apply orb_false_iff in E1. destruct E1 as [_ E1].
  apply Z.leb_gt in E1. apply Z.ltb_ge in E2. auto.
Qed.

Lemma main_runs (inputs : list (Frame * Z)) (given : option Z) (st : State) :
  main (Some inputs) given = Ok (Some st) ->
  (0 <= buffer_arg given)%Z
  /\ run (Mapper.init FRAME_WIDTH) (buffer_arg given) inputs
         (mkState VidStab_new (mkDeque (Z.to_nat (buffer_arg given)) [])
                  (mkDeque (Z.to_nat (buffer_arg given)) []) [])
     = Ok st.
Proof.
  unfold main. generalize (buffer_arg given) as buffer. intro buffer.
  destruct (@deque_new (option point) buffer) as [d|e] eqn:Ed; [|discriminate].
  apply deque_new_ok in Ed. destruct Ed as (Hb & ->).
  cbn [Py.bind]. intro Hmain. split; [lia|].
  destruct (run _ _ _ _) as [st1|e]; [|discriminate].
  cbn [Py.bind] in Hmain. congruence.
Qed.

(** C5: a trajectory buffer created with the configured capacity (64 when
    none is given) never holds more than that many entries and, whatever is
    pushed, holds the most recent ones up to the capacity, newest first, the
    oldest being dropped; both buffers of [main] are such buffers after any
    run. *)
Theorem C5_trajectory_keeps_most_recent (given : option Z)
  (d0 : deque (option point)) :
  deque_new (buffer_arg given) = Ok d0 ->
  buffer_arg None = 64%Z
  /\ (forall pushed,
        (length (items (push_all d0 pushed)) <= Z.to_nat (buffer_arg given))%nat
        /\ items (push_all d0 pushed)
           = firstn (Z.to_nat (buffer_arg given)) (rev pushed)
        /\ ((Z.to_nat (buffer_arg given) < length pushed)%nat ->
            length (items (push_all d0 pushed)) = Z.to_nat (buffer_arg given)))
  /\ (forall inputs st,
        main (Some inputs) given = Ok (Some st) ->
        exists xs ys,
          length xs = length ys
          /\ pts_original st = push_all d0 xs
          /\ pts_warped st = push_all d0 ys).
Proof.
  intro E. apply deque_new_ok in E. destruct E as (_ & ->).
  split; [reflexivity|]. split.
  - intro pushed.
    destruct (@push_all_spec _ pushed
                (mkDeque (Z.to_nat (buffer_arg given)) []) [])
      as (_ & Hi).
    { cbn. rewrite firstn_nil. reflexivity. }
    cbn [maxlen app] in Hi. rewrite Hi.
    split; [apply firstn_le_length|]. split; [reflexivity|].
    intro Hlt. rewrite firstn_length_le; [reflexivity|].
    rewrite length_rev. lia.
  - intros inputs st Hmain. apply main_runs in Hmain.
    destruct Hmain as (_ & Hrun).
    apply run_pushes in Hrun. exact Hrun.
Qed.

(** C8: when the stabilizer returns no frame, the iteration ends there:
    both trajectories are as before and nothing was detected, transformed
    or shown; the loop goes on to the next frame. *)
Theorem C8_not_ready_frame_is_skipped mapper buffer (st : State)
  (frame frame' : Frame) (pressed : Z) (stabilizer' : Stabilizer) :
  resize_to_width frame = Ok frame' ->
  stabilize_frame (stabilizer st) frame' SMOOTHING_WINDOW
  = (stabilizer', None) ->
  loop_body mapper buffer st (frame, pressed)
  = Ok (mkState stabilizer' (pts_original st) (pts_warped st) (trace st),
        Next).
Proof.
  intros Er Es. unfold loop_body. rewrite Er. cbn [Py.bind].
  rewrite Es. reflexivity.
Qed.

(** C10: after any run of [main] the two trajectories have the same
    length, and entry by entry the rectified one is absent exactly when
    the original one is. *)
Theorem C10_trajectories_in_step (inputs : list (Frame * Z))
  (given : option Z) (st : State) :
  main (Some inputs) given = Ok (Some st) ->
  length (items (pts_original st)) = length (items (pts_warped st))
  /\ Forall2 (fun c cw : option point => c = None <-> cw = None)
             (items (pts_original st)) (items (pts_warped st)).
Proof.
  intro Hmain. apply main_runs in Hmain. destruct Hmain as (_ & Hrun).
  assert (I : in_step st).
  { eapply in_step_run; [|exact Hrun]. split; [reflexivity | constructor]. }
  destruct I as (_ & Hf). split; [exact (Forall2_length Hf) | exact Hf].
Qed.

End TrackerFacts.

(** *** The driver on the sample instance *)

Lemma C5_trajectory_keeps_most_recent_witness :
  Tracker.items
    (Tracker.push_all (Tracker.mkDeque 2 [])
       [Some (1, 1)%Z; None; Some (3, 3)%Z; Some (4, 4)%Z])
  = [Some (4, 4)%Z; Some (3, 3)%Z]
  /\ exists st xs ys,
       @Tracker.main Demo.cv Demo.vidstab DemoDraw.np (Some Demo.inputs) (Some 2%Z) = Ok (Some st)
       /\ length xs = length ys
       /\ Tracker.pts_original st = Tracker.push_all (Tracker.mkDeque 2 []) xs
       /\ Tracker.pts_warped st = Tracker.push_all (Tracker.mkDeque 2 []) ys.
Proof.
  destruct (@C5_trajectory_keeps_most_recent Demo.cv Demo.vidstab DemoDraw.np (Some 2%Z)
              (Tracker.mkDeque 2 []) eq_refl) as (_ & Hdeque & Hmain).
  split.
  - destruct (Hdeque [Some (1, 1)%Z; None; Some (3, 3)%Z; Some (4, 4)%Z])
      as (_ & E & _).
    exact E.
  - eexists. 
    assert (E : forall r st0,
               r = Ok (Some st0) ->
               @Tracker.main Demo.cv Demo.vidstab DemoDraw.np (Some Demo.inputs) (Some 2%Z) = r ->
               exists xs ys,
                 @Tracker.main Demo.cv Demo.vidstab DemoDraw.np (Some Demo.inputs) (Some 2%Z)
                 = Ok (Some st0)
                 /\ length xs = length ys
                 /\ Tracker.pts_original st0
                    = Tracker.push_all (Tracker.mkDeque 2 []) xs
                 /\ Tracker.pts_warped st0
                    = Tracker.push_all (Tracker.mkDeque 2 []) ys).
    { intros r st0 -> Hm. destruct (Hmain _ _ Hm) as (xs & ys & H).
      exists xs, ys. split; [exact Hm | exact H]. }
    eapply E; [|vm_compute; reflexivity]. reflexivity.
Defined.

Lemma C8_not_ready_frame_is_skipped_witness :
  @Tracker.loop_body Demo.cv Demo.vidstab DemoDraw.np (Mapper.init Tracker.FRAME_WIDTH) 64
    (Tracker.mkState (vidstab := Demo.vidstab) 0%nat
       (Tracker.mkDeque 64 [Some (7, 7)%Z]) (Tracker.mkDeque 64 [Some (9, 9)%Z])
       [])
    (Demo.red_frame, 0%Z)
  = Ok (Tracker.mkState (vidstab := Demo.vidstab) 1%nat
          (Tracker.mkDeque 64 [Some (7, 7)%Z])
          (Tracker.mkDeque 64 [Some (9, 9)%Z]) [],
        Tracker.Next).
Proof.
  apply (@C8_not_ready_frame_is_skipped Demo.cv Demo.vidstab DemoDraw.np
           (Mapper.init Tracker.FRAME_WIDTH) 64
           (Tracker.mkState (vidstab := Demo.vidstab) 0%nat
              (Tracker.mkDeque 64 [Some (7, 7)%Z])
              (Tracker.mkDeque 64 [Some (9, 9)%Z]) [])
           Demo.red_frame Demo.red_frame 0%Z 1%nat).
  - vm_compute. reflexivity.
  - vm_compute. reflexivity.
Defined.

Lemma C10_trajectories_in_step_witness :
  exists st,
    @Tracker.main Demo.cv Demo.vidstab DemoDraw.np (Some Demo.inputs) (Some 2%Z) = Ok (Some st)
    /\ Tracker.items (Tracker.pts_original st)
       = [Some (15, 15)%Z; Some (15, 15)%Z]
    /\ length (Tracker.items (Tracker.pts_original st))
       = length (Tracker.items (Tracker.pts_warped st))
    /\ Forall2 (fun c cw : option point => c = None <-> cw = None)
               (Tracker.items (Tracker.pts_original st))
               (Tracker.items (Tracker.pts_warped st)).
Proof.
  eexists. split; [vm_compute; reflexivity|]. split; [reflexivity|].
  apply (@C10_trajectories_in_step Demo.cv Demo.vidstab DemoDraw.np Demo.inputs (Some 2%Z)).
  vm_compute. reflexivity.
Defined.

Example appendleft_without_capacity :
  Tracker.items (Tracker.appendleft (Tracker.mkDeque 0 []) (Some (1, 1)%Z)) = [].
Proof. reflexivity. Qed.

Example main_negative_buffer :
  @Tracker.main Demo.cv Demo.vidstab DemoDraw.np (Some Demo.inputs) (Some (-1)%Z)
  = Raise ValueError.
Proof. reflexivity. Qed.

Example main_unopened_video :
  @Tracker.main Demo.cv Demo.vidstab DemoDraw.np None None = Ok None.
Proof. reflexivity. Qed.

(** * Further properties *)

Unset Implicit Arguments.

(** ** main_tracker.py: draw_trajectory *)

Lemma int_nonneg (x : Q) : 0 <= x -> Py.int x = Qfloor x.
Proof.
  destruct x as [n d]. unfold Qle, Py.int, Qfloor. cbn [Qnum Qden].
  intro H. apply Z.quot_div_nonneg; lia.
Qed.

Lemma int_nonpos (x : Q) : x <= 0 -> Py.int x = Qceiling x.
Proof.
  destruct x as [n d]. unfold Qle, Py.int, Qceiling, Qfloor.
  cbn [Qnum Qden Qopp]. intro H.
  rewrite <- (Z.opp_involutive n) at 1.
  rewrite Z.quot_opp_l by lia.
  rewrite Z.quot_div_nonneg by lia. reflexivity.
Qed.

(** [int] keeps the order of its arguments. *)
Lemma int_monotone (x y : Q) : x <= y -> (Py.int x <= Py.int y)%Z.
Proof.
  intro H.
  destruct (Qlt_le_dec x 0) as [Hx | Hx]; destruct (Qlt_le_dec y 0) as [Hy | Hy].
  - rewrite !int_nonpos by (apply Qlt_le_weak; assumption).
    apply Qceiling_resp_le. exact H.
  - rewrite (int_nonpos _ (Qlt_le_weak _ _ Hx)), (int_nonneg _ Hy).
    pose proof (Qceiling_resp_le _ _ (Qlt_le_weak _ _ Hx)) as A.
    pose proof (Qfloor_resp_le _ _ Hy) as B.
    change (Qceiling 0) with 0%Z in A. change (Qfloor 0) with 0%Z in B. lia.
  - exfalso. apply (Qlt_irrefl 0). eapply Qle_lt_trans; [exact Hx|].
    eapply Qle_lt_trans; [exact H | exact Hy].
  - rewrite (int_nonneg _ Hx), (int_nonneg _ Hy). apply Qfloor_resp_le. exact H.
Qed.

Section TrajectoryFacts.

Import Trajectory.

Context {np : Numpy}.

Lemma limit64_above_lengths : (2 ^ 63 < Float.limit64)%Z.
Proof. vm_compute. reflexivity. Qed.

Lemma overflow64_above_thickness : 40000 < Float.overflow64.
Proof. vm_compute. reflexivity. Qed.

Lemma of_int_ok (n : Z) :
  (Z.abs n < Float.limit64)%Z -> Float.of_int n = Ok (inject_Z n).
Proof.
  intro H. unfold Float.of_int.
  replace (Py.ltb (Qabs (inject_Z n)) Float.overflow64) with true;
    [reflexivity|].
  symmetry. apply ltb_true.
  change (Qabs (inject_Z n)) with (inject_Z (Z.abs n)).
  unfold Float.overflow64. rewrite <- Zlt_Qlt. exact H.
Qed.

Lemma of_int_overflow (n : Z) :
  (Float.limit64 <= Z.abs n)%Z -> Float.of_int n = Raise OverflowError.
Proof.
  intro H. unfold Float.of_int.
  replace (Py.ltb (Qabs (inject_Z n)) Float.overflow64) with false;
    [reflexivity|].
  symmetry. apply ltb_false.
  change (Qabs (inject_Z n)) with (inject_Z (Z.abs n)).
  unfold Float.overflow64. rewrite <- Zle_Qle. exact H.
Qed.

Lemma of_int_inv (n : Z) (q : Q) :
  Float.of_int n = Ok q -> q = inject_Z n.
Proof.
  unfold Float.of_int.
  destruct (Py.ltb (Qabs (inject_Z n)) Float.overflow64); [|discriminate].
  intro E. injection E as <-. reflexivity.
Qed.

Lemma double_fin (q : Q) :
  Qabs q < Float.overflow64 -> Float.double q = Float.Fin q.
Proof.
  intro H. unfold Float.double, Float.rounded.
  replace (Py.ltb (Qabs q) Float.overflow64) with true; [reflexivity|].
  symmetry. apply ltb_true. exact H.
Qed.

Lemma double_cases (q : Q) :
  Float.double q = Float.Fin q \/ exists s, Float.double q = Float.Inf s.
Proof.
  unfold Float.double, Float.rounded.
  destruct (Py.ltb (Qabs q) Float.overflow64); eauto.
Qed.

Lemma ratio_ok (b : Z) (i : nat) :
  Py.div (inject_Z b) (inject_Z (Z.of_nat i + 1))
  = Ok (inject_Z b / inject_Z (Z.of_nat i + 1)).
Proof.
  apply div_ok. intro E. unfold Qeq in E. cbn in E. lia.
Qed.

Lemma ratio_ge_1 (b : Z) (i : nat) :
  (Z.of_nat i + 1 <= b)%Z -> 1 <= inject_Z b / inject_Z (Z.of_nat i + 1).
Proof.
  intro H. apply Qle_shift_div_l.
  - change 0 with (inject_Z 0). rewrite <- Zlt_Qlt. lia.
  - rewrite Qmult_1_l. rewrite <- Zle_Qle. exact H.
Qed.

Lemma ratio_antitone (b : Z) (i j : nat) :
  (0 <= b)%Z -> (i <= j)%nat ->
  0 <= inject_Z b / inject_Z (Z.of_nat j + 1)
  /\ inject_Z b / inject_Z (Z.of_nat j + 1)
     <= inject_Z b / inject_Z (Z.of_nat i + 1).
Proof.
  intros Hb Hij.
  assert (Hi : 0 < inject_Z (Z.of_nat i + 1))
    by (change 0 with (inject_Z 0); rewrite <- Zlt_Qlt; lia).
  assert (Hj : 0 < inject_Z (Z.of_nat j + 1))
    by (change 0 with (inject_Z 0); rewrite <- Zlt_Qlt; lia).
  assert (HB : 0 <= inject_Z b)
    by (change 0 with (inject_Z 0); rewrite <- Zle_Qle; lia).
  assert (Hle : inject_Z (Z.of_nat i + 1) <= inject_Z (Z.of_nat j + 1))
    by (rewrite <- Zle_Qle; lia).
  split.
  - apply Qle_shift_div_l; [exact Hj|]. rewrite Qmult_0_l. exact HB.
  - apply Qle_shift_div_r; [exact Hj|].
    assert (Hq : 0 <= inject_Z b / inject_Z (Z.of_nat i + 1)).
    { apply Qle_shift_div_l; [exact Hi|]. rewrite Qmult_0_l. exact HB. }
    assert (E : inject_Z (Z.of_nat i + 1)
                * (inject_Z b / inject_Z (Z.of_nat i + 1))
                == inject_Z b).
    { apply Qmult_div_r. intro E0. rewrite E0 in Hi.
      exact (Qlt_irrefl 0 Hi). }
    rewrite <- E at 1.
    rewrite (Qmult_comm _ (inject_Z (Z.of_nat j + 1))).
    apply Qmult_le_compat_r; assumption.
Qed.

(** A thickness that was computed, for a [buffer_size] that is not
    negative, is the truncated product. *)
Lemma line_thickness_inv (b : Z) (i : nat) (t : Z) :
  (0 <= b)%Z -> line_thickness b i = Ok t ->
  t = Py.int (sqrt (inject_Z b / inject_Z (Z.of_nat i + 1)) * (5 # 2)).
Proof.
  intros Hb. unfold line_thickness.
  destruct (Float.of_int (Z.of_nat i + 1)) as [d|e] eqn:Ed; [|discriminate].
  apply of_int_inv in Ed. subst d. cbn [Py.bind].
  destruct (Float.of_int b) as [n|e] eqn:En; [|discriminate].
  apply of_int_inv in En. subst n. cbn [Py.bind].
  rewrite ratio_ok. cbn [Py.bind]. unfold np_sqrt.
  destruct (ratio_antitone b i i Hb (le_n i)) as [H0 _].
  replace (Py.ltb (inject_Z b / inject_Z (Z.of_nat i + 1)) 0) with false
    by (symmetry; apply ltb_false; exact H0).
  set (s := sqrt (inject_Z b / inject_Z (Z.of_nat i + 1))).
  destruct (double_cases s) as [-> | (sg & ->)].
  - unfold Float.mul.
    destruct (double_cases (s * (5 # 2))) as [-> | (sg & ->)];
      cbn [Float.int]; congruence.
  - cbn. discriminate.
Qed.

(** X1: for a [buffer_size] that is not negative the thickness never grows
    along the trail: an older segment is at most as thick as a newer one
    (the square root keeps the order of numbers that are not negative). *)
Theorem thickness_never_grows (b : Z) (i j : nat) (ti tj : Z) :
  (forall x y, 0 <= x -> x <= y -> sqrt x <= sqrt y) ->
  (0 <= b)%Z -> (i <= j)%nat ->
  line_thickness b i = Ok ti -> line_thickness b j = Ok tj ->
  (tj <= ti)%Z.
Proof.
  intros Hmono Hb Hij Ei Ej.
  destruct (ratio_antitone b i j Hb Hij) as [H0 Hle].
  apply (line_thickness_inv b i ti Hb) in Ei.
  apply (line_thickness_inv b j tj Hb) in Ej. subst ti tj.
  apply int_monotone. specialize (Hmono _ _ H0 Hle). lra.
Qed.

(** A thickness that was computed for an index below [buffer_size] is at
    least 2 (the square root of a number from 1 on is at least 1). *)
Lemma thickness_at_least_two (b : Z) (i : nat) (t : Z) :
  (forall x, 1 <= x -> 1 <= sqrt x) ->
  (Z.of_nat i + 1 <= b)%Z ->
  line_thickness b i = Ok t -> (2 <= t)%Z.
Proof.
  intros Hsqrt Hi Et. pose proof (ratio_ge_1 b i Hi) as Hr.
  apply (line_thickness_inv b i t ltac:(lia)) in Et. subst t.
  specialize (Hsqrt _ Hr).
  rewrite int_nonneg by lra.
  change 2%Z with (Qfloor 2). apply Qfloor_resp_le. lra.
Qed.

(** For an index from 1 on and below a [buffer_size] of at most 26214 the
    thickness is computed, and cv2.line accepts it (the square root of a
    number from 1 on lies between 1 and that number). *)
Lemma thickness_in_range (b : Z) (i : nat) :
  (forall x, 1 <= x -> 1 <= sqrt x /\ sqrt x <= x) ->
  (1 <= i)%nat -> (Z.of_nat i + 1 <= b)%Z -> (b <= 26214)%Z ->
  exists t, line_thickness b i = Ok t /\ (2 <= t <= MAX_THICKNESS)%Z.
Proof.
  intros Hsqrt H1 Hi Hb.
  pose proof (ratio_ge_1 b i Hi) as Hr.
  destruct (ratio_antitone b 1 i ltac:(lia) H1) as [_ Hhalf].
  assert (Hb2 : inject_Z b / inject_Z (Z.of_nat 1 + 1) <= 13107).
  { apply Qle_shift_div_r; [reflexivity|].
    change (13107 * inject_Z (Z.of_nat 1 + 1)) with (inject_Z 26214).
    rewrite <- Zle_Qle. exact Hb. }
  destruct (Hsqrt _ Hr) as [Hlo Hup].
  set (r := inject_Z b / inject_Z (Z.of_nat i + 1)) in *.
  assert (Hs : sqrt r <= 13107) by lra.
  pose proof limit64_above_lengths as L.
  pose proof overflow64_above_thickness as O.
  unfold line_thickness.
  rewrite (of_int_ok (Z.of_nat i + 1)) by lia. cbn [Py.bind].
  rewrite (of_int_ok b) by lia. cbn [Py.bind].
  rewrite ratio_ok. cbn [Py.bind]. fold r. unfold np_sqrt.
  replace (Py.ltb r 0) with false by (symmetry; apply ltb_false; lra).
  rewrite double_fin
    by (eapply Qlt_trans; [|exact O]; apply Qabs_Qlt_condition; lra).
  unfold Float.mul.
  rewrite double_fin
    by (eapply Qlt_trans; [|exact O]; apply Qabs_Qlt_condition; lra).
  cbn [Float.int]. eexists. split; [reflexivity|].
  rewrite int_nonneg by lra. split.
  - change 2%Z with (Qfloor 2). apply Qfloor_resp_le. lra.
  - change MAX_THICKNESS with (Qfloor (65535 # 2)).
    apply Qfloor_resp_le. lra.
Qed.

Lemma cv2_line_inv (p q : point) (c : Color) (t : Z) (l : Line) :
  cv2_line p q c t = Ok l ->
  l = mkLine p q c t /\ (0 < t <= MAX_THICKNESS)%Z.
Proof.
  unfold cv2_line.
  destruct (c_int (fst p) && c_int (snd p) && c_int (fst q) && c_int (snd q)
            && (0 <? t)%Z && (t <=? MAX_THICKNESS)%Z) eqn:E; [|discriminate].
  intro El. injection El as <-. split; [reflexivity|].
  rewrite !andb_true_iff in E. destruct E as [[_ E1] E2].
  apply Z.ltb_lt in E1. apply Z.leb_le in E2. lia.
Qed.

Lemma cv2_line_accepts (p q : point) (c : Color) (t : Z) :
  c_int (fst p) = true -> c_int (snd p) = true ->
  c_int (fst q) = true -> c_int (snd q) = true ->
  (0 < t <= MAX_THICKNESS)%Z ->
  cv2_line p q c t = Ok (mkLine p q c t).
Proof.
  intros P1 P2 Q1 Q2 [H0 H1]. unfold cv2_line. rewrite P1, P2, Q1, Q2.
  replace (0 <? t)%Z with true by (symmetry; apply Z.ltb_lt; exact H0).
  replace (t <=? MAX_THICKNESS)%Z with true
    by (symmetry; apply Z.leb_le; exact H1).
  reflexivity.
Qed.

(** What the loop adds to the lines drawn before it. *)
Lemma for_each_draw_lines pts c b (idx : list nat) :
  forall drawn lines,
    Py.for_each (draw_body pts c b) idx drawn = Ok lines ->
    forall l, In l lines <->
      In l drawn
      \/ exists i p q t,
           In i idx /\ nth (i - 1) pts None = Some p /\ nth i pts None = Some q
           /\ line_thickness b i = Ok t /\ l = mkLine p q c t.
Proof.
  induction idx as [|i idx IH]; intros drawn lines E l; cbn [Py.for_each] in E.
  - injection E as <-. split; [auto|].
    intros [H | (i & p & q & t & [] & _)]. exact H.
  - destruct (draw_body pts c b drawn i) as [drawn1|e] eqn:E1; [|discriminate].
    cbn [Py.bind] in E. rewrite (IH _ _ E l). clear IH E.
    unfold draw_body in E1.
    destruct (nth (i - 1) pts None) as [p|] eqn:Ep;
      [destruct (nth i pts None) as [q|] eqn:Eq|].
    + destruct (line_thickness b i) as [t|e] eqn:Et; [|discriminate].
      cbn [Py.bind] in E1.
      destruct (cv2_line p q c t) as [l0|e] eqn:El; [|discriminate].
      cbn [Py.bind] in E1. injection E1 as <-.
      apply cv2_line_inv in El. destruct El as [-> _].
      rewrite in_app_iff. split.
      * intros [[H | [<- | []]] | (i' & p' & q' & t' & Hin & H)].
        -- now left.
        -- right. exists i, p, q, t. cbn [In]. auto.
        -- right. exists i', p', q', t'. cbn [In]. tauto.
      * intros [H | (i' & p' & q' & t' & [<- | Hin] & Hp & Hq & Ht & ->)].
        -- left. now left.
        -- left. right. left.
           rewrite Ep in Hp. rewrite Eq in Hq. rewrite Et in Ht.
           congruence.
        -- right. exists i', p', q', t'. auto.
    + injection E1 as <-. split.
      * intros [H | (i' & p' & q' & t' & Hin & H)]; [now left|].
        right. exists i', p', q', t'. cbn [In]. tauto.
      * intros [H | (i' & p' & q' & t' & [<- | Hin] & Hp & Hq & H)].
        -- now left.
        -- congruence.
        -- right. exists i', p', q', t'. auto.
    + injection E1 as <-. split.
      * intros [H | (i' & p' & q' & t' & Hin & H)]; [now left|].
        right. exists i', p', q', t'. cbn [In]. tauto.
      * intros [H | (i' & p' & q' & t' & [<- | Hin] & Hp & Hq & H)].
        -- now left.
        -- congruence.
        -- right. exists i', p', q', t'. auto.
Qed.

(** X2: the lines drawn are exactly the pairs of neighbouring entries that
    are both present, each with the thickness of its index; no line ever
    touches an absent entry, so an absent entry is a gap in the trail. *)
Theorem draw_trajectory_lines (pts : list (option point)) (c : Color)
  (b : Z) (lines : list Line) :
  draw_trajectory pts c b = Ok lines ->
  forall l, In l lines <->
    exists i p q t,
      (1 <= i < length pts)%nat
      /\ nth (i - 1) pts None = Some p /\ nth i pts None = Some q
      /\ line_thickness b i = Ok t /\ l = mkLine p q c t.
Proof.
  intros E l. unfold draw_trajectory in E.
  rewrite (for_each_draw_lines _ _ _ _ _ _ E l). split.
  - intros [[] | (i & p & q & t & Hin & H)].
    exists i, p, q, t. split; [|exact H]. apply in_seq in Hin. lia.
  - intros (i & p & q & t & Hi & H). right.
    exists i, p, q, t. split; [|exact H]. apply in_seq. lia.
Qed.

(** Every line of a trajectory that was drawn went through cv2.line, so
    its thickness is one cv2.line accepts. *)
Lemma for_each_draw_checked pts c b (idx : list nat) :
  forall drawn lines,
    Py.for_each (draw_body pts c b) idx drawn = Ok lines ->
    Forall (fun l => 0 < thickness l <= MAX_THICKNESS)%Z drawn ->
    Forall (fun l => 0 < thickness l <= MAX_THICKNESS)%Z lines.
Proof.
  induction idx as [|i idx IH]; intros drawn lines E Hd; cbn [Py.for_each] in E.
  - injection E as <-. exact Hd.
  - destruct (draw_body pts c b drawn i) as [drawn1|e] eqn:E1; [|discriminate].
    cbn [Py.bind] in E. apply (IH _ _ E). clear IH E.
    unfold draw_body in E1.
    destruct (nth (i - 1) pts None) as [p|];
      [destruct (nth i pts None) as [q|]|];
      try (injection E1 as <-; exact Hd).
    destruct (line_thickness b i) as [t|e]; [|discriminate].
    cbn [Py.bind] in E1.
    destruct (cv2_line p q c t) as [l0|e] eqn:El; [|discriminate].
    cbn [Py.bind] in E1. injection E1 as <-.
    apply cv2_line_inv in El. destruct El as [-> Ht].
    apply Forall_app. split; [exact Hd|]. constructor; [exact Ht | constructor].
Qed.

Lemma for_each_draw_total pts c b (P : Line -> Prop) (idx : list nat) :
  (forall i p q, In i idx ->
     nth (i - 1) pts None = Some p -> nth i pts None = Some q ->
     exists t, line_thickness b i = Ok t
               /\ cv2_line p q c t = Ok (mkLine p q c t)
               /\ P (mkLine p q c t)) ->
  forall drawn, Forall P drawn ->
    exists lines,
      Py.for_each (draw_body pts c b) idx drawn = Ok lines /\ Forall P lines.
Proof.
  induction idx as [|i idx IH]; intros Hidx drawn Hd; cbn [Py.for_each].
  - eauto.
  - assert (IH' := IH (fun j p q Hj => Hidx j p q (or_intror Hj))). clear IH.
    unfold draw_body at 1.
    destruct (nth (i - 1) pts None) as [p|] eqn:Ep;
      [destruct (nth i pts None) as [q|] eqn:Eq|]; cbn [Py.bind]; auto.
    destruct (Hidx i p q (or_introl eq_refl) Ep Eq) as (t & Et & El & HP).
    rewrite Et. cbn [Py.bind]. rewrite El. cbn [Py.bind]. apply IH'.
    apply Forall_app. split; [exact Hd|]. constructor; [exact HP | constructor].
Qed.

Lemma in_nth_some (pts : list (option point)) (i : nat) (p : point) :
  nth i pts None = Some p -> In (Some p) pts.
Proof.
  intro H. destruct (Nat.lt_ge_cases i (length pts)) as [Hlt | Hge].
  - rewrite <- H. apply nth_In. exact Hlt.
  - rewrite nth_overflow in H by exact Hge. discriminate.
Qed.

Lemma draw_trajectory_safe (pts : list (option point)) (c : Color) (b : Z) :
  (forall x, 1 <= x -> 1 <= sqrt x /\ sqrt x <= x) ->
  (Z.of_nat (length pts) <= b)%Z -> (b <= 26214)%Z ->
  (forall p, In (Some p) pts -> c_int (fst p) = true /\ c_int (snd p) = true) ->
  exists lines,
    draw_trajectory pts c b = Ok lines
    /\ Forall (fun l => 2 <= thickness l <= MAX_THICKNESS)%Z lines.
Proof.
  intros Hsqrt Hlen Hb Hpts. unfold draw_trajectory.
  apply for_each_draw_total; [|constructor].
  intros i p q Hi Ep Eq. apply in_seq in Hi.
  destruct (thickness_in_range b i Hsqrt ltac:(lia) ltac:(lia) Hb)
    as (t & Et & Ht).
  exists t. split; [exact Et|].
  destruct (Hpts p (in_nth_some _ _ _ Ep)) as [P1 P2].
  destruct (Hpts q (in_nth_some _ _ _ Eq)) as [Q1 Q2].
  split; [|exact Ht].
  apply cv2_line_accepts; try assumption. lia.
Qed.

(** X3: on a trail no longer than [buffer_size], with [buffer_size] at
    most 26214 and coordinates that fit a C [int], the function raises
    nothing and every line it draws has a thickness from 2 to 32767, which
    cv2.line accepts (the square root of a number from 1 on lies between 1
    and that number). *)
Theorem draw_trajectory_within_capacity (pts : list (option point))
  (c : Color) (b : Z) :
  (forall x, 1 <= x -> 1 <= sqrt x /\ sqrt x <= x) ->
  (Z.of_nat (length pts) <= b)%Z -> (b <= 26214)%Z ->
  (forall p, In (Some p) pts -> c_int (fst p) = true /\ c_int (snd p) = true) ->
  exists lines,
    draw_trajectory pts c b = Ok lines
    /\ Forall (fun l => 2 <= thickness l <= MAX_THICKNESS)%Z lines.
Proof. exact (draw_trajectory_safe pts c b). Qed.

(** With a negative [buffer_size] no thickness is computed: the conversion
    of [buffer_size] to a float overflows, or the square root is nan. *)
Lemma line_thickness_negative (b : Z) (i : nat) :
  (b < 0)%Z -> (Z.of_nat i + 1 < Float.limit64)%Z ->
  line_thickness b i
  = Raise (if (- Float.limit64 <? b)%Z then ValueError else OverflowError).
Proof.
  intros Hb Hi. unfold line_thickness.
  rewrite (of_int_ok (Z.of_nat i + 1)) by lia. cbn [Py.bind].
  destruct (- Float.limit64 <? b)%Z eqn:E.
  - apply Z.ltb_lt in E. rewrite (of_int_ok b) by lia. cbn [Py.bind].
    rewrite ratio_ok. cbn [Py.bind]. unfold np_sqrt.
    replace (Py.ltb (inject_Z b / inject_Z (Z.of_nat i + 1)) 0) with true;
      [reflexivity|].
    symmetry. apply ltb_true. apply Qlt_shift_div_r.
    + change 0 with (inject_Z 0). rewrite <- Zlt_Qlt. lia.
    + rewrite Qmult_0_l. change 0 with (inject_Z 0). rewrite <- Zlt_Qlt.
      exact Hb.
  - apply Z.ltb_ge in E. rewrite (of_int_overflow b) by lia. reflexivity.
Qed.

Lemma for_each_draw_raises pts c b (e : Py.exn) (idx : list nat) :
  (forall i, In i idx -> line_thickness b i = Raise e) ->
  forall drawn,
    Py.for_each (draw_body pts c b) idx drawn
    = if existsb (fun i => match nth (i - 1) pts None, nth i pts None with
                           | Some _, Some _ => true
                           | _, _ => false
                           end) idx
      then Raise e else Ok drawn.
Proof.
  induction idx as [|i idx IH]; intros Hidx drawn;
    cbn [Py.for_each existsb]; [reflexivity|].
  assert (IH' := IH (fun j Hj => Hidx j (or_intror Hj))). clear IH.
  unfold draw_body at 1.
  destruct (nth (i - 1) pts None) as [p|];
    [destruct (nth i pts None) as [q|]|]; cbn [Py.bind orb]; auto.
  rewrite (Hidx i (or_introl eq_refl)). reflexivity.
Qed.

(** X4: with a negative [buffer_size], [draw_trajectory] raises as soon as
    two neighbouring entries are present: [ValueError] when [buffer_size]
    converts to a float (the square root is nan and [int] refuses it),
    [OverflowError] when it is too large to convert; it draws nothing
    otherwise.  The trail has a length Python allows. *)
Theorem draw_trajectory_negative_buffer (pts : list (option point))
  (c : Color) (b : Z) :
  (b < 0)%Z -> (Z.of_nat (length pts) < 2 ^ 63)%Z ->
  ((exists i p q, (1 <= i < length pts)%nat
                  /\ nth (i - 1) pts None = Some p /\ nth i pts None = Some q) ->
   ((- Float.limit64 < b)%Z -> draw_trajectory pts c b = Raise ValueError)
   /\ ((b <= - Float.limit64)%Z ->
       draw_trajectory pts c b = Raise OverflowError))
  /\ ((forall i, (1 <= i < length pts)%nat ->
                 nth (i - 1) pts None = None \/ nth i pts None = None) ->
      draw_trajectory pts c b = Ok []).
Proof.
  intros Hb Hlen. pose proof limit64_above_lengths as L.
  unfold draw_trajectory.
  rewrite (for_each_draw_raises pts c b
             (if (- Float.limit64 <? b)%Z then ValueError else OverflowError)).
  2:{ intros i Hi. apply in_seq in Hi.
      apply line_thickness_negative; [exact Hb | lia]. }
  split.
  - intros (i & p & q & Hi & Hp & Hq).
    replace (existsb _ _) with true.
    2:{ symmetry. apply existsb_exists. exists i. split.
        - apply in_seq. lia.
        - rewrite Hp, Hq. reflexivity. }
    split; intro Hbb.
    + replace (- Float.limit64 <? b)%Z with true
        by (symmetry; apply Z.ltb_lt; exact Hbb).
      reflexivity.
    + replace (- Float.limit64 <? b)%Z with false
        by (symmetry; apply Z.ltb_ge; exact Hbb).
      reflexivity.
  - intro Hgap.
    replace (existsb _ _) with false; [reflexivity|].
    symmetry. apply not_true_is_false. intro Hex.
    apply existsb_exists in Hex. destruct Hex as (i & Hin & Hi).
    apply in_seq in Hin.
    destruct (Hgap i ltac:(lia)) as [E | E]; rewrite E in Hi.
    + discriminate.
    + destruct (nth (i - 1) pts None); discriminate.
Qed.

End TrajectoryFacts.

(** *** [draw_trajectory] on the sample square root *)

Lemma demo_sqrt_ge_1 :
  forall x, 1 <= x -> 1 <= @Trajectory.sqrt DemoDraw.np x.
Proof.
  intros x Hx. cbn.
  pose proof (Qfloor_resp_le _ _ Hx) as Hf. change (Qfloor 1) with 1%Z in Hf.
  pose proof (Z.sqrt_le_mono _ _ Hf) as Hs. change (Z.sqrt 1) with 1%Z in Hs.
  change 1 with (inject_Z 1). rewrite <- Zle_Qle. exact Hs.
Qed.

Lemma demo_sqrt_monotone :
  forall x y, 0 <= x -> x <= y ->
              @Trajectory.sqrt DemoDraw.np x <= @Trajectory.sqrt DemoDraw.np y.
Proof.
  intros x y _ Hxy. cbn. rewrite <- Zle_Qle.
  apply Z.sqrt_le_mono, Qfloor_resp_le, Hxy.
Qed.

Lemma thickness_never_grows_witness : (5 <= 12)%Z.
Proof.
  apply (@thickness_never_grows DemoDraw.np 64 1 15 12 5).
  - exact demo_sqrt_monotone.
  - vm_compute. discriminate.
  - repeat constructor.
  - vm_compute. reflexivity.
  - vm_compute. reflexivity.
Defined.

Lemma draw_trajectory_lines_witness :
  In (Trajectory.mkLine (9, 9)%Z (10, 12)%Z Trajectory.red 7)
     [Trajectory.mkLine (5, 5)%Z (6, 7)%Z Trajectory.red 12;
      Trajectory.mkLine (9, 9)%Z (10, 12)%Z Trajectory.red 7;
      Trajectory.mkLine (10, 12)%Z (11, 15)%Z Trajectory.red 7] <->
  exists i p q t,
    (1 <= i < length DemoDraw.trail)%nat
    /\ nth (i - 1) DemoDraw.trail None = Some p
    /\ nth i DemoDraw.trail None = Some q
    /\ @Trajectory.line_thickness DemoDraw.np 64 i = Ok t
    /\ Trajectory.mkLine (9, 9)%Z (10, 12)%Z Trajectory.red 7
       = Trajectory.mkLine p q Trajectory.red t.
Proof.
  apply (@draw_trajectory_lines DemoDraw.np DemoDraw.trail Trajectory.red 64).
  vm_compute. reflexivity.
Defined.

Lemma demo_sqrt_bounds :
  forall x, 1 <= x ->
            1 <= @Trajectory.sqrt DemoDraw.np x
            /\ @Trajectory.sqrt DemoDraw.np x <= x.
Proof.
  intros x Hx. split; [exact (demo_sqrt_ge_1 x Hx)|]. cbn.
  pose proof (Qfloor_resp_le _ _ Hx) as Hf. change (Qfloor 1) with 1%Z in Hf.
  pose proof (Z.sqrt_le_lin (Qfloor x) ltac:(lia)) as Hs.
  eapply Qle_trans; [|apply Qfloor_le]. rewrite <- Zle_Qle. exact Hs.
Qed.

Lemma demo_trail_fits :
  forall p, In (Some p) DemoDraw.trail ->
            Trajectory.c_int (fst p) = true /\ Trajectory.c_int (snd p) = true.
Proof.
  intros p Hin. unfold DemoDraw.trail in Hin. cbn [In] in Hin.
  repeat (destruct Hin as [Hin | Hin];
          [try discriminate; injection Hin as <-; split; reflexivity|]).
  destruct Hin.
Qed.

Lemma draw_trajectory_within_capacity_witness :
  exists lines,
    @Trajectory.draw_trajectory DemoDraw.np DemoDraw.trail Trajectory.red 64
    = Ok lines
    /\ Forall (fun l => 2 <= Trajectory.thickness l
                        <= Trajectory.MAX_THICKNESS)%Z lines.
Proof.
  apply (@draw_trajectory_within_capacity DemoDraw.np DemoDraw.trail
           Trajectory.red 64).
  - exact demo_sqrt_bounds.
  - vm_compute. discriminate.
  - vm_compute. discriminate.
  - exact demo_trail_fits.
Defined.

Lemma draw_trajectory_negative_buffer_witness :
  @Trajectory.draw_trajectory DemoDraw.np DemoDraw.trail Trajectory.red (-1)
  = Raise ValueError
  /\ @Trajectory.draw_trajectory DemoDraw.np DemoDraw.trail Trajectory.red
       (- Float.limit64)
     = Raise OverflowError
  /\ @Trajectory.draw_trajectory DemoDraw.np
       [Some (1, 1)%Z; None; Some (3, 3)%Z] Trajectory.red (-1)
     = Ok [].
Proof.
  assert (Hpair : exists i p q,
             (1 <= i < length DemoDraw.trail)%nat
             /\ nth (i - 1) DemoDraw.trail None = Some p
             /\ nth i DemoDraw.trail None = Some q).
  { exists 1%nat, (5, 5)%Z, (6, 7)%Z. cbn. repeat split; lia. }
  split; [|split].
  - apply (@draw_trajectory_negative_buffer DemoDraw.np DemoDraw.trail
             Trajectory.red (-1));
      [reflexivity | vm_compute; reflexivity | exact Hpair
       | vm_compute; reflexivity].
  - apply (@draw_trajectory_negative_buffer DemoDraw.np DemoDraw.trail
             Trajectory.red (- Float.limit64));
      [vm_compute; reflexivity | vm_compute; reflexivity | exact Hpair
       | vm_compute; discriminate].
  - apply (@draw_trajectory_negative_buffer DemoDraw.np
             [Some (1, 1)%Z; None; Some (3, 3)%Z] Trajectory.red (-1));
      [reflexivity | vm_compute; reflexivity|].
    intros i Hi. cbn [length] in Hi.
    assert (Ei : i = 1%nat \/ i = 2%nat) by lia.
    destruct Ei as [-> | ->]; cbn; auto.
Defined.

(** A thickness above 32767 is refused by cv2.line. *)
Example draw_trajectory_too_thick :
  @Trajectory.draw_trajectory DemoDraw.np
    [Some (1, 1)%Z; Some (2, 2)%Z] Trajectory.red 400000000
  = Raise Cv2Error.
Proof. vm_compute. reflexivity. Qed.

(** Past [buffer_size] the thickness does fall to zero. *)
Example thickness_beyond_capacity :
  @Trajectory.line_thickness DemoDraw.np 3 20 = Ok 0%Z.
Proof. vm_compute. reflexivity. Qed.

(** ** perspective_mapper.py: the quadrilateral and the canvas *)

Section GeometryFacts.

Import Geometry.

Let mapper := Mapper.init Tracker.FRAME_WIDTH.

Lemma mapper_matrix :
  Mapper.M mapper
  = mkMatrix (19551 # 8200) (399 # 1025) (-231021 # 410)
             0 (8091 # 2050) (-16182 # 41)
             0 (2 # 1025) 1.
Proof. vm_compute. reflexivity. Qed.

(** The four sides of the configured quadrilateral, as inequalities. *)
Lemma inside_src (x y : Q) :
  inside (Mapper.pts_src mapper) (x, y)
  <-> (100 <= y /\ y <= 590
       /\ 11580 <= 49 * x + 8 * y /\ 49 * x - 8 * y <= 19780).
Proof.
  unfold inside, mapper. cbn [Mapper.init Mapper.pts_src sides sides_from].
  split.
  - intro H.
    inversion H as [|? ? H1 Ha]; subst; clear H.
    inversion Ha as [|? ? H2 Hb]; subst; clear Ha.
    inversion Hb as [|? ? H3 Hc]; subst; clear Hb.
    inversion Hc as [|? ? H4 _]; subst; clear Hc.
    unfold cross in *. cbn [fst snd] in *. lra.
  - intros (H1 & H2 & H3 & H4).
    repeat (apply Forall_cons || apply Forall_nil);
      unfold cross; cbn [fst snd]; lra.
Qed.


(** The image of a point whose weight is above [FLT_EPSILON]. *)
Lemma image_src (x y : Q) :
  Float.FLT_EPSILON < (2 # 1025) * y + 1 ->
  Mapper.perspectiveTransform (Mapper.M mapper) (x, y)
  = (((19551 # 8200) * x + (399 # 1025) * y + (-231021 # 410))
     / (0 * x + (2 # 1025) * y + 1),
     (0 * x + (8091 # 2050) * y + (-16182 # 41))
     / (0 * x + (2 # 1025) * y + 1)).
Proof.
  intro Hw. rewrite mapper_matrix. unfold Mapper.perspectiveTransform.
  cbn [m11 m12 m13 m21 m22 m23 m31 m32 m33].
  replace (Py.ltb Float.FLT_EPSILON (Qabs (0 * x + (2 # 1025) * y + 1)))
    with true; [reflexivity|].
  symmetry. apply ltb_true.
  eapply Qlt_le_trans; [|apply Qle_Qabs]. lra.
Qed.

Lemma div_bounds (a w n : Q) :
  0 < w -> ((0 <= a / w /\ a / w <= n) <-> (0 <= a /\ a <= n * w)).
Proof.
  intro Hw.
  assert (Hne : ~ w == 0) by (intro E; rewrite E in Hw; exact (Qlt_irrefl 0 Hw)).
  pose proof (Qmult_div_r a w Hne) as E.
  split.
  - intros [H0 Hn]. split.
    + rewrite <- E. apply Qmult_le_0_compat; [apply Qlt_le_weak; exact Hw | exact H0].
    + rewrite <- E at 1. rewrite (Qmult_comm w).
      apply Qmult_le_compat_r; [exact Hn | apply Qlt_le_weak; exact Hw].
  - intros [H0 Hn]. split.
    + apply Qle_shift_div_l; [exact Hw|]. rewrite Qmult_0_l. exact H0.
    + apply Qle_shift_div_r; [exact Hw | exact Hn].
Qed.

Lemma image_on_canvas_iff (x y : Q) :
  Float.FLT_EPSILON < (2 # 1025) * y + 1 ->
  (on_canvas mapper (Mapper.perspectiveTransform (Mapper.M mapper) (x, y))
   <-> (100 <= y /\ y <= 590
        /\ 11580 <= 49 * x + 8 * y /\ 49 * x - 8 * y <= 19780)).
Proof.
  intro Hw. rewrite (image_src x y Hw). unfold on_canvas. cbn [fst snd].
  change (inject_Z (Mapper.WARPED_WIDTH mapper - 1)) with 399.
  change (inject_Z (Mapper.WARPED_HEIGHT mapper - 1)) with 899.
  assert (Hw' : 0 < 0 * x + (2 # 1025) * y + 1)
    by (unfold Float.FLT_EPSILON in Hw; lra).
  rewrite !(div_bounds _ _ _ Hw'). split; intro H; lra.
Qed.

Lemma int_in_range (v : Q) (n : Z) :
  0 <= v -> v <= inject_Z n -> (0 <= Py.int v <= n)%Z.
Proof.
  intros H0 Hn. rewrite (int_nonneg v H0).
  pose proof (Qfloor_resp_le _ _ H0) as A. change (Qfloor 0) with 0%Z in A.
  pose proof (Qfloor_resp_le _ _ Hn) as B. rewrite Qfloor_Z in B. lia.
Qed.

(** X5: a point of the configured source quadrilateral, boundary included,
    has its image inside the warped frame, and [transform_point] returns a
    pixel of that frame: column 0 to 399, row 0 to 899. *)
Theorem quadrilateral_lands_on_canvas (p : Q * Q) :
  inside (Mapper.pts_src mapper) p ->
  on_canvas mapper (Mapper.perspectiveTransform (Mapper.M mapper) p)
  /\ exists q, Mapper.transform_point mapper (Some p) = Some q
               /\ pixel_on_canvas mapper q.
Proof.
  destruct p as [x y]. intro H. apply inside_src in H.
  assert (Hw : Float.FLT_EPSILON < (2 # 1025) * y + 1)
    by (unfold Float.FLT_EPSILON; lra).
  assert (C : on_canvas mapper
                (Mapper.perspectiveTransform (Mapper.M mapper) (x, y))).
  { apply image_on_canvas_iff; assumption. }
  split; [exact C|].
  unfold Mapper.transform_point. eexists. split; [reflexivity|].
  destruct C as [[Hx0 Hx1] [Hy0 Hy1]].
  unfold pixel_on_canvas. cbn [fst snd].
  pose proof (int_in_range _ _ Hx0 Hx1) as A.
  pose proof (int_in_range _ _ Hy0 Hy1) as B.
  change (Mapper.WARPED_WIDTH mapper) with 400%Z in *.
  change (Mapper.WARPED_HEIGHT mapper) with 900%Z in *. lia.
Qed.









End GeometryFacts.

Lemma quadrilateral_lands_on_canvas_witness :
  Geometry.on_canvas (Mapper.init Tracker.FRAME_WIDTH)
    (Mapper.perspectiveTransform (Mapper.M (Mapper.init Tracker.FRAME_WIDTH))
       (300, 400))
  /\ exists q,
       Mapper.transform_point (Mapper.init Tracker.FRAME_WIDTH)
         (Some (300, 400)) = Some q
       /\ Geometry.pixel_on_canvas (Mapper.init Tracker.FRAME_WIDTH) q.
Proof.
  apply (quadrilateral_lands_on_canvas (300, 400)).
  repeat constructor; vm_compute; discriminate.
Defined.



(** A weight of 1/8396800, positive but not above [FLT_EPSILON]: OpenCV
    does not divide and the point goes to the origin. *)
Example transform_point_small_weight :
  Mapper.transform_point (Mapper.init Tracker.FRAME_WIDTH)
    (Some (300, -8396799 # 16384))
  = Some (0, 0)%Z.
Proof. vm_compute. reflexivity. Qed.

(** Truncation toward zero does pull in a pixel whose image is less than
    one pixel outside. *)
Example transform_point_just_outside :
  Mapper.transform_point (Mapper.init Tracker.FRAME_WIDTH)
    (Some (2199 # 10, 100))
  = Some (0, 0)%Z
  /\ ~ Geometry.inside (Mapper.pts_src (Mapper.init Tracker.FRAME_WIDTH))
         (2199 # 10, 100).
Proof.
  split; [vm_compute; reflexivity|].
  intro H. apply inside_src in H. lra.
Qed.

(** ** ball_detector.py: the selection loop *)

Section SelectionFacts.

Import Detector.

Context {cv : OpenCV}.

(** One pass of the loop body either keeps the pair or takes the contour,
    and it takes only a qualifying contour larger than the best so far. *)
Lemma filter_body_step (acc acc' : option Contour * Q) (c : Contour) :
  filter_body acc c = Ok acc' ->
  acc' = acc
  \/ (acc' = (Some c, contourArea c)
      /\ snd acc < contourArea c /\ qualifies c).
Proof.
  unfold filter_body. destruct acc as [best m].
  destruct (Py.ltb (contourArea c) 100) eqn:Esmall;
    [intro E; injection E as <-; now left|].
  apply ltb_false in Esmall.
  assert (Er : radius_of c = snd (minEnclosingCircle c)) by reflexivity.
  destruct (minEnclosingCircle c) as [ctr radius]. cbn [snd] in Er.
  destruct (Qeq_bool radius 0) eqn:Ezero;
    [intro E; injection E as <-; now left|].
  apply Qeq_bool_neq in Ezero.
  rewrite (div_ok _ (circle_area_nonzero Ezero)). cbn [Py.bind].
  assert (Ec : circularity c = contourArea c / (Py.math_pi * radius ^ 2)).
  { unfold circularity. rewrite Er. reflexivity. }
  rewrite <- Ec.
  destruct (Py.ltb (7 # 10) (circularity c)) eqn:Ecirc;
    [|intro E; injection E as <-; now left].
  apply ltb_true in Ecirc.
  destruct (Py.ltb m (contourArea c)) eqn:Emax; cbn [andb];
    [|intro E; injection E as <-; now left].
  apply ltb_true in Emax.
  destruct (Py.ltb (contourArea c) 8000) eqn:Ebig;
    [|intro E; injection E as <-; now left].
  apply ltb_true in Ebig.
  intro E. injection E as <-. right.
  split; [reflexivity|]. split; [exact Emax|].
  split; [exact Esmall|]. split; [rewrite Er; exact Ezero|].
  split; [exact Ecirc | exact Ebig].
Qed.

(** The best contour so far comes after every qualifying contour of the
    same or a larger area: no earlier one reaches its area. *)
Lemma for_each_first (cnts : list Contour) :
  forall seen acc acc',
    loop_inv seen acc ->
    match fst acc with
    | None => True
    | Some b =>
        exists pre post,
          seen = pre ++ b :: post
          /\ forall c, In c pre -> qualifies c -> contourArea c < contourArea b
    end ->
    Py.for_each filter_body cnts acc = Ok acc' ->
    match fst acc' with
    | None => True
    | Some b =>
        exists pre post,
          seen ++ cnts = pre ++ b :: post
          /\ forall c, In c pre -> qualifies c -> contourArea c < contourArea b
    end.
Proof.
  induction cnts as [|c cnts IH]; intros seen acc acc' I F E;
    cbn [Py.for_each] in E.
  - injection E as <-. rewrite app_nil_r. exact F.
  - destruct (filter_body acc c) as [acc1|e] eqn:E1; [|discriminate].
    cbn [Py.bind] in E.
    destruct (@filter_body_inv cv seen acc c I) as (acc1' & E1' & I1).
    rewrite E1 in E1'. injection E1' as <-.
    replace (seen ++ c :: cnts) with ((seen ++ [c]) ++ cnts)
      by (rewrite <- app_assoc; reflexivity).
    apply (IH (seen ++ [c]) acc1 acc' I1); [|exact E].
    destruct (filter_body_step acc acc1 c E1) as [-> | (-> & Hlt & Hq)].
    + destruct (fst acc) as [b|]; [|exact Logic.I].
      destruct F as (pre & post & -> & Hpre).
      exists pre, (post ++ [c]). split; [|exact Hpre].
      rewrite <- app_assoc. reflexivity.
    + cbn [fst]. exists seen, []. split; [reflexivity|].
      intros c' Hin Hq'. unfold loop_inv in I.
      destruct acc as [[b|] m]; cbn [fst snd] in *.
      * destruct I as (_ & _ & -> & Hmax).
        specialize (Hmax c' Hin Hq'). lra.
      * destruct I as (_ & Hno). destruct (Hno c' Hin Hq').
Qed.

(** X7: when some extracted contour meets the four constraints and the
    contours that do have a zeroth moment other than zero, [detect_ball]
    returns a centre: that of a qualifying contour, with its radius. *)
Theorem detection_complete (frame : Frame) :
  (exists c, In c (findContours_EXTERNAL_SIMPLE (cleaned_mask frame))
             /\ qualifies c) ->
  (forall c, In c (findContours_EXTERNAL_SIMPLE (cleaned_mask frame)) ->
             qualifies c -> ~ m00 (moments c) == 0) ->
  exists b,
    In b (findContours_EXTERNAL_SIMPLE (cleaned_mask frame)) /\ qualifies b
    /\ detect_ball frame
       = Ok (Some (centroid b), radius_of b, cleaned_mask frame).
Proof.
  intros (c & Hin & Hq) Hm.
  destruct (detect_ball_cases frame) as (acc & _ & I & ->).
  unfold loop_inv in I. destruct (fst acc) as [b|].
  - destruct I as (Hb & Qb & _). exists b. split; [exact Hb|].
    split; [exact Qb|].
    destruct (Qeq_bool (m00 (moments b)) 0) eqn:E0; [|reflexivity].
    apply Qeq_bool_iff in E0. destruct (Hm b Hb Qb E0).
  - destruct I as (_ & Hno). destruct (Hno c Hin Hq).
Qed.

(** X8: the comparison with [max_area] is strict, so of several
    qualifying contours of the largest area the first one extracted is the
    one selected: every qualifying contour before it is strictly smaller. *)
Theorem selection_takes_first_largest (cnts : list Contour) (b : Contour)
  (a : Q) :
  select_best cnts = Ok (Some b, a) ->
  exists pre post,
    cnts = pre ++ b :: post
    /\ (forall c, In c pre -> qualifies c -> contourArea c < contourArea b)
    /\ (forall c, In c post -> qualifies c -> contourArea c <= contourArea b).
Proof.
  intro E.
  assert (I0 : loop_inv [] (None, 0)).
  { split; [reflexivity|]. intros c []. }
  pose proof (for_each_first cnts [] (None, 0) (Some b, a) I0 Logic.I E) as F.
  cbn [fst app] in F. destruct F as (pre & post & Ecnts & Hpre).
  exists pre, post. split; [exact Ecnts|]. split; [exact Hpre|].
  destruct (select_best_spec cnts) as (acc & E' & I).
  rewrite E in E'. injection E' as <-.
  destruct I as (_ & _ & _ & Hmax). cbn [fst] in Hmax.
  intros c Hin Hq. apply Hmax; [|exact Hq].
  rewrite Ecnts. apply in_or_app. right. now right.
Qed.

End SelectionFacts.

Lemma demo_contours :
  @findContours_EXTERNAL_SIMPLE Demo.cv
    (@Detector.cleaned_mask Demo.cv Demo.red_frame)
  = [Demo.strip; Demo.big_octagon; Demo.octagon; Demo.small_octagon].
Proof. vm_compute. reflexivity. Qed.

Lemma demo_octagon_qualifies : @Detector.qualifies Demo.cv Demo.octagon.
Proof.
  split; [vm_compute; discriminate|]. split; [vm_compute; discriminate|].
  split; vm_compute; reflexivity.
Qed.

Lemma detection_complete_witness :
  exists b,
    In b (@findContours_EXTERNAL_SIMPLE Demo.cv
            (@Detector.cleaned_mask Demo.cv Demo.red_frame))
    /\ @Detector.qualifies Demo.cv b
    /\ @Detector.detect_ball Demo.cv Demo.red_frame
       = Ok (Some (@Detector.centroid Demo.cv b),
             @Detector.radius_of Demo.cv b,
             @Detector.cleaned_mask Demo.cv Demo.red_frame).
Proof.
  apply (@detection_complete Demo.cv Demo.red_frame).
  - exists Demo.octagon. split; [|exact demo_octagon_qualifies].
    rewrite demo_contours. cbn. auto.
  - intros c Hin _. rewrite demo_contours in Hin.
    destruct Hin as [<- | [<- | [<- | [<- | []]]]]; vm_compute; discriminate.
Defined.

Lemma selection_takes_first_largest_witness :
  exists pre post,
    [Demo.small_octagon; Demo.octagon;
     map (fun p : point => (fst p + 50, snd p)%Z) Demo.octagon]
    = pre ++ Demo.octagon :: post
    /\ (forall c, In c pre -> @Detector.qualifies Demo.cv c ->
                  @contourArea Demo.cv c < @contourArea Demo.cv Demo.octagon)
    /\ (forall c, In c post -> @Detector.qualifies Demo.cv c ->
                  @contourArea Demo.cv c <= @contourArea Demo.cv Demo.octagon).
Proof.
  apply (@selection_takes_first_largest Demo.cv
           [Demo.small_octagon; Demo.octagon;
            map (fun p : point => (fst p + 50, snd p)%Z) Demo.octagon]
           Demo.octagon (1400 # 2)).
  vm_compute. reflexivity.
Defined.

(** ** ball_detector.py: the cleaned mask *)

Section MaskFacts.

Import Morphology.

Lemma pixel_at_inv (m : Mask) (y x v : Z) :
  pixel_at m y x = Some v ->
  (0 <= y)%Z /\ (0 <= x)%Z
  /\ exists row, nth_error m (Z.to_nat y) = Some row
                 /\ nth_error row (Z.to_nat x) = Some v.
Proof.
  unfold pixel_at. destruct ((y <? 0) || (x <? 0))%Z eqn:E; [discriminate|].
  apply orb_false_iff in E. destruct E as [Ey Ex].
  apply Z.ltb_ge in Ey, Ex.
  destruct (nth_error m (Z.to_nat y)) as [row|]; [|discriminate].
  intro H. eauto.
Qed.

Lemma nth_error_mapi_from {A B : Type} (f : nat -> A -> B) (l : list A) :
  forall i j,
    nth_error (mapi_from i f l) j = option_map (f (i + j)%nat) (nth_error l j).
Proof.
  induction l as [|a l IH]; intros i j; cbn [mapi_from].
  - destruct j; reflexivity.
  - destruct j as [|j]; cbn [nth_error option_map].
    + rewrite Nat.add_0_r. reflexivity.
    + rewrite IH. rewrite Nat.add_succ_r. reflexivity.
Qed.

(** A pixel of an image built row by row and column by column. *)
Lemma pixel_at_mapi (g : nat -> nat -> Z) (m : Mask) (y x : Z) :
  pixel_at (mapi (fun r row => mapi (fun c (_ : Z) => g r c) row) m) y x
  = option_map (fun _ => g (Z.to_nat y) (Z.to_nat x)) (pixel_at m y x).
Proof.
  unfold pixel_at. destruct ((y <? 0) || (x <? 0))%Z; [reflexivity|].
  unfold mapi. rewrite nth_error_mapi_from. cbn [Nat.add].
  destruct (nth_error m (Z.to_nat y)) as [row|]; [|reflexivity].
  cbn [option_map]. rewrite nth_error_mapi_from. reflexivity.
Qed.

Lemma in_neighbourhood (kernel : list (list Z)) (m : Mask) (y x : nat)
  (v : Z) :
  In v (neighbourhood kernel m y x)
  <-> exists d, In d (kernel_offsets kernel)
                /\ pixel_at m (Z.of_nat y + fst d) (Z.of_nat x + snd d) = Some v.
Proof.
  unfold neighbourhood. rewrite in_flat_map. split.
  - intros (d & Hd & Hv). exists d. split; [exact Hd|].
    destruct (pixel_at m _ _) as [w|]; [|destruct Hv].
    destruct Hv as [<- | []]. reflexivity.
  - intros (d & Hd & E). exists d. split; [exact Hd|]. rewrite E. now left.
Qed.

Lemma fold_min_le (l : list Z) (u : Z) :
  In u l -> (fold_right Z.min 255 l <= u)%Z.
Proof.
  induction l as [|a l IH]; intro H; [destruct H|].
  cbn [fold_right]. destruct H as [<- | H]; [lia|].
  specialize (IH H). lia.
Qed.

Lemma fold_min_nonneg (l : list Z) :
  (forall v, In v l -> 0 <= v)%Z -> (0 <= fold_right Z.min 255 l)%Z.
Proof.
  induction l as [|a l IH]; intro H; cbn [fold_right]; [lia|].
  pose proof (H a (or_introl eq_refl)).
  pose proof (IH (fun v Hv => H v (or_intror Hv))). lia.
Qed.

Lemma fold_max_bounds (l : list Z) :
  (0 <= fold_right Z.max 0 l)%Z
  /\ forall v, In v l -> (v <= fold_right Z.max 0 l)%Z.
Proof.
  induction l as [|a l [IH0 IH]]; cbn [fold_right].
  - split; [lia | intros v []].
  - split; [lia|]. intros v [<- | H]; [lia|]. specialize (IH v H). lia.
Qed.

Lemma fold_max_le (l : list Z) (u : Z) :
  (0 <= u)%Z -> (forall v, In v l -> v <= u)%Z ->
  (fold_right Z.max 0 l <= u)%Z.
Proof.
  intro Hu. induction l as [|a l IH]; intro H; cbn [fold_right]; [lia|].
  pose proof (H a (or_introl eq_refl)).
  pose proof (IH (fun v Hv => H v (or_intror Hv))). lia.
Qed.

(** Erosion followed by dilation, with a kernel that has the opposite of
    each of its offsets, never raises a pixel. *)
Lemma opening_below (kernel : list (list Z)) (m : Mask) :
  (forall d, In d (kernel_offsets kernel) ->
             In (- fst d, - snd d)%Z (kernel_offsets kernel)) ->
  (forall y x v, pixel_at m y x = Some v -> 0 <= v)%Z ->
  below (dilate_once kernel (erode_once kernel m)) m.
Proof.
  intros Hsym Hnn y x v Hv.
  unfold dilate_once in Hv. rewrite pixel_at_mapi in Hv.
  unfold erode_once in Hv at 2. rewrite pixel_at_mapi in Hv.
  destruct (pixel_at m y x) as [u|] eqn:Eu; [|discriminate].
  cbn [option_map] in Hv. injection Hv as <-.
  exists u. split; [reflexivity|].
  destruct (pixel_at_inv m y x u Eu) as (Hy & Hx & _).
  apply fold_max_le; [exact (Hnn y x u Eu)|].
  intros w Hw. apply in_neighbourhood in Hw.
  destruct Hw as ([dy dx] & Hd & Ew). cbn [fst snd] in Ew.
  rewrite !Z2Nat.id in Ew by assumption.
  unfold erode_once in Ew. rewrite pixel_at_mapi in Ew.
  destruct (pixel_at m (y + dy) (x + dx)) as [u'|] eqn:Eq; [|discriminate].
  cbn [option_map] in Ew. injection Ew as <-.
  destruct (pixel_at_inv m _ _ u' Eq) as (Hqy & Hqx & _).
  apply fold_min_le. apply in_neighbourhood.
  exists (- dy, - dx)%Z. split; [exact (Hsym (dy, dx) Hd)|].
  cbn [fst snd]. rewrite !Z2Nat.id by assumption.
  replace (y + dy + - dy)%Z with y by lia.
  replace (x + dx + - dx)%Z with x by lia. exact Eu.
Qed.

(** Dilation keeps the order of masks. *)
Lemma dilate_once_monotone (kernel : list (list Z)) (a b : Mask) :
  below a b -> below (dilate_once kernel a) (dilate_once kernel b).
Proof.
  intros Hab y x v Hv.
  unfold dilate_once in *. rewrite pixel_at_mapi in *.
  destruct (pixel_at a y x) as [va|] eqn:Ea; [|discriminate].
  cbn [option_map] in Hv. injection Hv as <-.
  destruct (Hab y x va Ea) as (vb & Eb & _). rewrite Eb. cbn [option_map].
  eexists. split; [reflexivity|].
  destruct (fold_max_bounds (neighbourhood kernel b (Z.to_nat y) (Z.to_nat x)))
    as [B0 B].
  apply fold_max_le; [exact B0|].
  intros w Hw. apply in_neighbourhood in Hw. destruct Hw as (d & Hd & Ew).
  destruct (Hab _ _ w Ew) as (w' & Ew' & Hle).
  specialize (B w'). eapply Z.le_trans; [exact Hle|]. apply B.
  apply in_neighbourhood. exists d. split; assumption.
Qed.

Lemma below_trans (a b c : Mask) : below a b -> below b c -> below a c.
Proof.
  intros Hab Hbc y x v Hv.
  destruct (Hab y x v Hv) as (u & Eu & Hvu).
  destruct (Hbc y x u Eu) as (w & Ew & Huw).
  exists w. split; [exact Ew | lia].
Qed.

Lemma erode_once_nonneg (kernel : list (list Z)) (m : Mask) :
  (forall y x v, pixel_at m y x = Some v -> 0 <= v)%Z ->
  (forall y x v, pixel_at (erode_once kernel m) y x = Some v -> 0 <= v)%Z.
Proof.
  intros Hnn y x v Hv. unfold erode_once in Hv. rewrite pixel_at_mapi in Hv.
  destruct (pixel_at m y x); [|discriminate].
  cbn [option_map] in Hv. injection Hv as <-.
  apply fold_min_nonneg. intros w Hw. apply in_neighbourhood in Hw.
  destruct Hw as (d & _ & Ew). exact (Hnn _ _ w Ew).
Qed.

Lemma kernel_symmetric :
  forall d, In d (kernel_offsets (np_ones 5 5)) ->
            In (- fst d, - snd d)%Z (kernel_offsets (np_ones 5 5)).
Proof.
  assert (H : forallb (fun d : Z * Z =>
                existsb (fun e : Z * Z =>
                           ((fst e =? - fst d) && (snd e =? - snd d))%Z)
                        (kernel_offsets (np_ones 5 5)))
                (kernel_offsets (np_ones 5 5)) = true)
    by (vm_compute; reflexivity).
  intros d Hd. rewrite forallb_forall in H. specialize (H d Hd).
  apply existsb_exists in H. destruct H as ([ey ex] & He & E).
  cbn [fst snd] in E. apply andb_true_iff in E. destruct E as [E1 E2].
  apply Z.eqb_eq in E1, E2. subst. exact He.
Qed.

Lemma pixelwise (P : Z -> Prop) (m : Mask) :
  Forall (Forall P) m <-> forall y x v, pixel_at m y x = Some v -> P v.
Proof.
  split.
  - intros H y x v Hv.
    destruct (pixel_at_inv m y x v Hv) as (_ & _ & row & Hr & Hc).
    apply nth_error_In in Hr, Hc.
    rewrite Forall_forall in H. specialize (H row Hr).
    rewrite Forall_forall in H. exact (H v Hc).
  - intro H. apply Forall_forall. intros row Hrow.
    apply Forall_forall. intros v Hv.
    apply In_nth_error in Hrow, Hv.
    destruct Hrow as (i & Hi). destruct Hv as (j & Hj).
    apply (H (Z.of_nat i) (Z.of_nat j)). unfold pixel_at.
    replace ((Z.of_nat i <? 0) || (Z.of_nat j <? 0))%Z with false
      by (symmetry; apply orb_false_iff; split; apply Z.ltb_ge; lia).
    rewrite !Nat2Z.id, Hi. exact Hj.
Qed.

Lemma nth_error_zip_with {A B C : Type} (f : A -> B -> C) (xs : list A) :
  forall (ys : list B) (i : nat),
    nth_error (zip_with f xs ys) i
    = match nth_error xs i, nth_error ys i with
      | Some x, Some y => Some (f x y)
      | _, _ => None
      end.
Proof.
  induction xs as [|x xs IH]; intros ys i; cbn [zip_with].
  - destruct i; reflexivity.
  - destruct ys as [|y ys].
    + destruct i as [|i]; cbn [nth_error]; [reflexivity|].
      destruct (nth_error xs i); reflexivity.
    + destruct i as [|i]; cbn [nth_error]; [reflexivity | apply IH].
Qed.

(** A pixel of the mask of step 2 is the disjunction of the two range tests
    on the pixel of the HSV image at the same place. *)
Lemma raw_mask_pixel (hsv : Frame) (y x u : Z) :
  pixel_at (raw_mask hsv) y x = Some u ->
  exists px,
    frame_at hsv y x = Some px
    /\ u = Z.lor
             (if within (0, 100, 50)%Z (10, 255, 255)%Z px then 255 else 0)
             (if within (170, 100, 50)%Z (179, 255, 255)%Z px then 255 else 0).
Proof.
  unfold pixel_at, frame_at, raw_mask, bitwise_or, inRange.
  destruct ((y <? 0) || (x <? 0))%Z; [discriminate|].
  rewrite nth_error_zip_with, !nth_error_map.
  destruct (nth_error hsv (Z.to_nat y)) as [row|]; [|discriminate].
  cbn [option_map]. rewrite nth_error_zip_with, !nth_error_map.
  destruct (nth_error row (Z.to_nat x)) as [px|]; [|discriminate].
  cbn [option_map]. intro E. injection E as <-. eauto.
Qed.

Lemma raw_mask_binary (hsv : Frame) : binary (raw_mask hsv).
Proof.
  apply pixelwise. intros y x u Hu.
  destruct (raw_mask_pixel hsv y x u Hu) as (px & _ & ->).
  destruct (within _ _ px); destruct (within _ _ px); auto.
Qed.

Lemma fold_min_binary (l : list Z) :
  (forall v, In v l -> v = 0 \/ v = 255)%Z ->
  (fold_right Z.min 255 l = 0 \/ fold_right Z.min 255 l = 255)%Z.
Proof.
  induction l as [|a l IH]; intro H; cbn [fold_right]; [auto|].
  pose proof (H a (or_introl eq_refl)).
  pose proof (IH (fun v Hv => H v (or_intror Hv))). lia.
Qed.

Lemma fold_max_binary (l : list Z) :
  (forall v, In v l -> v = 0 \/ v = 255)%Z ->
  (fold_right Z.max 0 l = 0 \/ fold_right Z.max 0 l = 255)%Z.
Proof.
  induction l as [|a l IH]; intro H; cbn [fold_right]; [auto|].
  pose proof (H a (or_introl eq_refl)).
  pose proof (IH (fun v Hv => H v (or_intror Hv))). lia.
Qed.

Lemma erode_once_binary (kernel : list (list Z)) (m : Mask) :
  binary m -> binary (erode_once kernel m).
Proof.
  unfold binary. rewrite !pixelwise. intros Hm y x v Hv.
  unfold erode_once in Hv. rewrite pixel_at_mapi in Hv.
  destruct (pixel_at m y x); [|discriminate].
  cbn [option_map] in Hv. injection Hv as <-.
  apply fold_min_binary. intros w Hw. apply in_neighbourhood in Hw.
  destruct Hw as (d & _ & Ew). exact (Hm _ _ w Ew).
Qed.

Lemma dilate_once_binary (kernel : list (list Z)) (m : Mask) :
  binary m -> binary (dilate_once kernel m).
Proof.
  unfold binary. rewrite !pixelwise. intros Hm y x v Hv.
  unfold dilate_once in Hv. rewrite pixel_at_mapi in Hv.
  destruct (pixel_at m y x); [|discriminate].
  cbn [option_map] in Hv. injection Hv as <-.
  apply fold_max_binary. intros w Hw. apply in_neighbourhood in Hw.
  destruct Hw as (d & _ & Ew). exact (Hm _ _ w Ew).
Qed.

Lemma length_mapi_from {A B : Type} (f : nat -> A -> B) (l : list A) :
  forall i, length (mapi_from i f l) = length l.
Proof.
  induction l as [|a l IH]; intro i; cbn [mapi_from length]; [reflexivity|].
  rewrite IH. reflexivity.
Qed.

Lemma row_lengths_mapi (g : nat -> nat -> Z) (m : Mask) :
  row_lengths (mapi (fun r row => mapi (fun c (_ : Z) => g r c) row) m)
  = row_lengths m.
Proof.
  unfold row_lengths.
  assert (H : forall i,
             map (@length Z)
                 (mapi_from i (fun r row => mapi (fun c (_ : Z) => g r c) row) m)
             = map (@length Z) m).
  { induction m as [|row m IH]; intro i; cbn [mapi_from map]; [reflexivity|].
    unfold mapi at 1. rewrite length_mapi_from, IH. reflexivity. }
  exact (H 0%nat).
Qed.

Lemma row_lengths_inRange (img : Frame) (lo hi : Pixel) :
  row_lengths (inRange img lo hi) = row_lengths img.
Proof.
  unfold row_lengths, inRange. rewrite map_map. apply map_ext.
  intro row. apply length_map.
Qed.

Lemma length_zip_with {A B C : Type} (f : A -> B -> C) (xs : list A) :
  forall ys : list B,
    length xs = length ys -> length (zip_with f xs ys) = length xs.
Proof.
  induction xs as [|x xs IH]; intros [|y ys] H; cbn [zip_with length] in *;
    try reflexivity; try discriminate.
  rewrite IH by lia. reflexivity.
Qed.

Lemma row_lengths_bitwise_or (a : Mask) :
  forall b : Mask,
    row_lengths a = row_lengths b ->
    row_lengths (bitwise_or a b) = row_lengths a.
Proof.
  unfold row_lengths, bitwise_or.
  induction a as [|r a IH]; intros [|r' b] H; cbn [zip_with map] in *;
    try reflexivity; try discriminate.
  injection H as Hr Hrest.
  rewrite (length_zip_with Z.lor r r' Hr), (IH b Hrest). reflexivity.
Qed.

Section WithOpenCV.

Import Detector.

Context {cv : OpenCV}.

Lemma cleaned_mask_unfold (frame : Frame) :
  cleaned_mask frame
  = dilate_once (np_ones 5 5)
      (dilate_once (np_ones 5 5)
         (erode_once (np_ones 5 5)
            (erode_once (np_ones 5 5) (raw_mask (hsv_of frame))))).
Proof. reflexivity. Qed.

Lemma cleaned_mask_is_binary_aux (frame : Frame) :
  binary (cleaned_mask frame).
Proof.
  rewrite cleaned_mask_unfold.
  do 2 apply dilate_once_binary. do 2 apply erode_once_binary.
  apply raw_mask_binary.
Qed.

(** X9: the mask [detect_ball] returns is binary: every pixel is 0 or
    255, for every frame and whatever blur and colour conversion do. *)
Theorem cleaned_mask_is_binary (frame : Frame) : binary (cleaned_mask frame).
Proof. exact (cleaned_mask_is_binary_aux frame). Qed.

(** X10: the mask has the rows of the blurred HSV image, each of the same
    length: erosion and dilation do not crop or pad. *)
Theorem cleaned_mask_keeps_shape (frame : Frame) :
  row_lengths (cleaned_mask frame) = row_lengths (hsv_of frame).
Proof.
  rewrite cleaned_mask_unfold. unfold dilate_once, erode_once.
  rewrite !row_lengths_mapi. unfold raw_mask.
  rewrite row_lengths_bitwise_or; rewrite !row_lengths_inRange; reflexivity.
Qed.

Lemma cleaned_below_raw (frame : Frame) :
  below (cleaned_mask frame) (raw_mask (hsv_of frame)).
Proof.
  rewrite cleaned_mask_unfold.
  set (raw := raw_mask (hsv_of frame)).
  set (k := np_ones 5 5).
  assert (Hraw : (forall y x v, pixel_at raw y x = Some v -> 0 <= v)%Z).
  { intros y x v Hv. pose proof (raw_mask_binary (hsv_of frame)) as B.
    unfold binary in B. rewrite pixelwise in B.
    destruct (B y x v Hv); lia. }
  apply below_trans with (b := dilate_once k (erode_once k raw)).
  - apply dilate_once_monotone.
    apply (opening_below k (erode_once k raw) kernel_symmetric).
    apply erode_once_nonneg. exact Hraw.
  - apply (opening_below k raw kernel_symmetric Hraw).
Qed.

(** X11: erosion and dilation never add a pixel: wherever the returned
    mask is set, the pixel of the blurred HSV image at that place is in one
    of the two red ranges. *)
Theorem cleaned_mask_marks_red_only (frame : Frame) (y x v : Z) :
  pixel_at (cleaned_mask frame) y x = Some v -> v <> 0%Z ->
  exists px, frame_at (hsv_of frame) y x = Some px /\ is_red px.
Proof.
  intros Hv Hne.
  assert (Hpos : (0 < v)%Z).
  { pose proof (cleaned_mask_is_binary_aux frame) as B.
    unfold binary in B. rewrite pixelwise in B.
    destruct (B y x v Hv); lia. }
  destruct (cleaned_below_raw frame y x v Hv) as (u & Eu & Hle).
  destruct (raw_mask_pixel _ y x u Eu) as (px & Epx & ->).
  exists px. split; [exact Epx|].
  destruct (within (0, 100, 50)%Z (10, 255, 255)%Z px) eqn:E1;
    [exact (within_red1 px E1)|].
  destruct (within (170, 100, 50)%Z (179, 255, 255)%Z px) eqn:E2;
    [exact (within_red2 px E2)|].
  cbn in Hle. lia.
Qed.

End WithOpenCV.

End MaskFacts.

(** ** main_tracker.py: the loop and [main] *)

Section DriverFacts.

Import Tracker Log.

Context {cv : OpenCV} {vidstab : VidStab} {np : Trajectory.Numpy}.

(** The result of one iteration, written out. *)
Lemma loop_body_spec mapper buffer (st : State) (frame : Frame) (pressed : Z)
  (st' : State) (ctl : control) :
  loop_body mapper buffer st (frame, pressed) = Ok (st', ctl) ->
  exists frame' s' ofs,
    resize_to_width frame = Ok frame'
    /\ stabilize_frame (stabilizer st) frame' SMOOTHING_WINDOW = (s', ofs)
    /\ match ofs with
       | None =>
           st' = mkState s' (pts_original st) (pts_warped st) (trace st)
           /\ ctl = Next
       | Some fs =>
           exists center radius,
             st' = mkState s'
                     (appendleft (pts_original st) center)
                     (appendleft (pts_warped st) (warp_center mapper center))
                     (trace st
                      ++ [WarpFrame; DebugOverlay; DetectBall]
                      ++ overlay_events center (warp_center mapper center) radius
                      ++ [DrawTrajectory StabilizedView
                            (items (appendleft (pts_original st) center)) buffer;
                          DrawTrajectory TopDownView
                            (items (appendleft (pts_warped st)
                                      (warp_center mapper center))) buffer;
                          Imshow StabilizedView; Imshow TopDownView;
                          Imshow MaskView; WaitKey])
             /\ ctl = (if (Z.land pressed 255 =? 113)%Z then Break else Next)
             /\ (exists lines,
                   Trajectory.draw_trajectory
                     (items (appendleft (pts_original st) center))
                     Trajectory.red buffer = Ok lines)
             /\ (exists lines,
                   Trajectory.draw_trajectory
                     (items (appendleft (pts_warped st)
                               (warp_center mapper center)))
                     Trajectory.red buffer = Ok lines)
       end.
Proof.
  unfold loop_body.
  destruct (resize_to_width frame) as [frame'|e]; [|discriminate].
  cbn [Py.bind].
  destruct (stabilize_frame (stabilizer st) frame' SMOOTHING_WINDOW)
    as [s' ofs] eqn:Es.
  intro E. exists frame', s', ofs. split; [reflexivity|]. split; [exact Es|].
  destruct ofs as [fs|].
  - destruct (@detect_ball_total cv fs) as (center & radius & Ed).
    rewrite Ed in E. cbn [Py.bind] in E.
    destruct (Trajectory.draw_trajectory
                (items (appendleft (pts_original st) center))
                Trajectory.red buffer) as [lines1|e] eqn:E1; [|discriminate].
    cbn [Py.bind] in E.
    destruct (Trajectory.draw_trajectory
                (items (appendleft (pts_warped st) (warp_center mapper center)))
                Trajectory.red buffer) as [lines2|e] eqn:E2; [|discriminate].
    cbn [Py.bind] in E. injection E as <- <-.
    exists center, radius.
    split; [reflexivity|]. split; [reflexivity|].
    split; [exists lines1 | exists lines2]; first [assumption | reflexivity].
  - injection E as <- <-. split; reflexivity.
Qed.

(** What [draw_trajectory] can raise. *)
Lemma line_thickness_raises (b : Z) (i : nat) (e : Py.exn) :
  Trajectory.line_thickness b i = Raise e ->
  e = OverflowError \/ e = ValueError.
Proof.
  unfold Trajectory.line_thickness, Float.of_int.
  destruct (Py.ltb (Qabs (inject_Z (Z.of_nat i + 1))) Float.overflow64);
    cbn [Py.bind]; [|intro E; left; congruence].
  destruct (Py.ltb (Qabs (inject_Z b)) Float.overflow64);
    cbn [Py.bind]; [|intro E; left; congruence].
  rewrite ratio_ok. cbn [Py.bind].
  destruct (Float.mul _ _); cbn [Float.int]; intro E;
    [discriminate | left; congruence | right; congruence].
Qed.

Lemma for_each_draw_exn pts c b (e : Py.exn) (idx : list nat) :
  forall drawn,
    Py.for_each (Trajectory.draw_body pts c b) idx drawn = Raise e ->
    e = OverflowError \/ e = ValueError \/ e = Cv2Error.
Proof.
  induction idx as [|i idx IH]; intros drawn E; cbn [Py.for_each] in E;
    [discriminate|].
  destruct (Trajectory.draw_body pts c b drawn i) as [drawn'|e'] eqn:Eb;
    cbn [Py.bind] in E.
  - exact (IH drawn' E).
  - injection E as ->. unfold Trajectory.draw_body in Eb.
    destruct (nth (i - 1) pts None) as [p|]; [|discriminate].
    destruct (nth i pts None) as [q|]; [|discriminate].
    destruct (Trajectory.line_thickness b i) as [t|e1] eqn:Et;
      cbn [Py.bind] in Eb.
    + unfold Trajectory.cv2_line in Eb.
      destruct (_ && _)%bool; cbn [Py.bind] in Eb; [discriminate|].
      right; right. congruence.
    + injection Eb as ->.
      destruct (line_thickness_raises _ _ _ Et); auto.
Qed.

Lemma draw_trajectory_exn pts c b (e : Py.exn) :
  Trajectory.draw_trajectory pts c b = Raise e -> e <> ZeroDivisionError.
Proof.
  unfold Trajectory.draw_trajectory. intro E.
  destruct (for_each_draw_exn _ _ _ _ _ _ E) as [-> | [-> | ->]];
    discriminate.
Qed.

(** X12: an iteration raises [ZeroDivisionError] exactly for a frame
    without columns, where line 62 divides by the width; neither
    [detect_ball] nor [draw_trajectory] raises it. *)
Theorem zero_division_only_without_columns mapper buffer (st : State)
  (frame : Frame) (pressed : Z) :
  loop_body mapper buffer st (frame, pressed) = Raise ZeroDivisionError
  <-> snd (shape frame) = 0%Z.
Proof.
  split.
  - intro E. destruct (Z.eq_dec (snd (shape frame)) 0) as [H0 | Hne];
      [exact H0|]. exfalso.
    unfold loop_body, resize_to_width in E.
    destruct (shape frame) as [height width]. cbn [snd] in Hne.
    unfold Py.div in E.
    assert (Ew : Qeq_bool (inject_Z width) 0 = false).
    { destruct (Qeq_bool (inject_Z width) 0) eqn:Eq; [|reflexivity].
      apply Qeq_bool_iff in Eq. unfold Qeq in Eq. cbn in Eq. lia. }
    rewrite Ew in E. cbn [Py.bind] in E.
    destruct (stabilize_frame _ _ _) as [s' [fs|]]; [|discriminate].
    destruct (@detect_ball_total cv fs) as (center & radius & Ed).
    rewrite Ed in E. cbn [Py.bind] in E.
    destruct (Trajectory.draw_trajectory
                (items (appendleft (pts_original st) center))
                Trajectory.red buffer) as [lines1|e] eqn:E1;
      cbn [Py.bind] in E.
    + destruct (Trajectory.draw_trajectory
                  (items (appendleft (pts_warped st)
                            (warp_center mapper center)))
                  Trajectory.red buffer) as [lines2|e] eqn:E2;
        cbn [Py.bind] in E; [discriminate|].
      apply draw_trajectory_exn in E2. congruence.
    + apply draw_trajectory_exn in E1. congruence.
  - intro H0. unfold loop_body, resize_to_width.
    destruct (shape frame) as [height width]. cbn [snd] in H0. subst width.
    reflexivity.
Qed.

(** X13: the loop ends on the key [q] only: an iteration asks for the end
    exactly when the frame went through (the stabilizer returned one) and
    the low byte of the key is 113; a key pressed while the stabilizer
    warms up is not looked at.  When it asks for the end, no later frame
    is read. *)
Theorem quit_needs_processed_frame mapper buffer (st st' : State)
  (frame frame' : Frame) (pressed : Z) (s' : Stabilizer)
  (ofs : option Frame) (ctl : control) :
  resize_to_width frame = Ok frame' ->
  stabilize_frame (stabilizer st) frame' SMOOTHING_WINDOW = (s', ofs) ->
  loop_body mapper buffer st (frame, pressed) = Ok (st', ctl) ->
  (ctl = Break <-> ofs <> None /\ Z.land pressed 255 = 113%Z)
  /\ (ctl = Break ->
      forall rest, run mapper buffer ((frame, pressed) :: rest) st = Ok st').
Proof.
  intros Er Es E. split.
  - destruct (loop_body_spec _ _ _ _ _ _ _ E) as (f1 & s1 & o1 & Er1 & Es1 & H).
    rewrite Er in Er1. injection Er1 as <-.
    rewrite Es in Es1. injection Es1 as <- <-.
    destruct ofs as [fs|].
    + destruct H as (center & radius & _ & -> & _).
      destruct (Z.land pressed 255 =? 113)%Z eqn:Ek.
      * apply Z.eqb_eq in Ek. split; [intros _; split; [discriminate | exact Ek]|].
        reflexivity.
      * apply Z.eqb_neq in Ek. split; [discriminate|]. intros [_ Hk]. contradiction.
    + destruct H as (_ & ->). split; [discriminate|]. intros [Hn _]. congruence.
  - intros -> rest. cbn [run]. rewrite E. reflexivity.
Qed.

Lemma detections_app (a b : list Event) :
  detections (a ++ b) = (detections a + detections b)%nat.
Proof. unfold detections. rewrite filter_app, length_app. reflexivity. Qed.

Lemma detections_overlay (center center_warped : option point) (radius : Q) :
  detections (overlay_events center center_warped radius) = 0%nat.
Proof. destruct center, center_warped; reflexivity. Qed.

Lemma length_appendleft {A : Type} (d : deque A) (x : A) :
  (length (items d) <= maxlen d)%nat ->
  length (items (appendleft d x))
  = Nat.min (maxlen d) (S (length (items d))).
Proof.
  intro H. rewrite (@appendleft_items A d x H), length_firstn. reflexivity.
Qed.

(** What holds of the trajectories and the log at every turn of the loop:
    both deques have capacity [cap] and as many entries as frames went
    through, up to [cap]; every trajectory drawn was within [cap] and its
    drawing returned. *)
Lemma run_counts mapper buffer (cap : nat) (inputs : list (Frame * Z)) :
  forall st st',
    run mapper buffer inputs st = Ok st' ->
    (maxlen (pts_original st) = cap /\ maxlen (pts_warped st) = cap
     /\ length (items (pts_original st)) = Nat.min cap (detections (trace st))
     /\ length (items (pts_warped st)) = Nat.min cap (detections (trace st))
     /\ forall v pts b, In (DrawTrajectory v pts b) (trace st) ->
                        b = buffer /\ (length pts <= cap)%nat
                        /\ exists lines,
                             Trajectory.draw_trajectory pts Trajectory.red b
                             = Ok lines) ->
    (maxlen (pts_original st') = cap /\ maxlen (pts_warped st') = cap
     /\ length (items (pts_original st')) = Nat.min cap (detections (trace st'))
     /\ length (items (pts_warped st')) = Nat.min cap (detections (trace st'))
     /\ forall v pts b, In (DrawTrajectory v pts b) (trace st') ->
                        b = buffer /\ (length pts <= cap)%nat
                        /\ exists lines,
                             Trajectory.draw_trajectory pts Trajectory.red b
                             = Ok lines).
Proof.
  induction inputs as [|[frame pressed] rest IH]; intros st st' E I;
    cbn [run] in E.
  - injection E as <-. exact I.
  - destruct (loop_body mapper buffer st (frame, pressed)) as [[st1 ctl]|e]
      eqn:E1; [|discriminate].
    cbn [Py.bind fst snd] in E.
    assert (I1 : maxlen (pts_original st1) = cap /\ maxlen (pts_warped st1) = cap
                 /\ length (items (pts_original st1))
                    = Nat.min cap (detections (trace st1))
                 /\ length (items (pts_warped st1))
                    = Nat.min cap (detections (trace st1))
                 /\ forall v pts b, In (DrawTrajectory v pts b) (trace st1) ->
                                    b = buffer /\ (length pts <= cap)%nat
                                    /\ exists lines,
                                         Trajectory.draw_trajectory pts
                                           Trajectory.red b = Ok lines).
    { destruct I as (Mo & Mw & Lo & Lw & D).
      destruct (loop_body_spec _ _ _ _ _ _ _ E1) as (f1 & s1 & [fs|] & _ & _ & H).
      - destruct H as (center & radius & -> & _ & Do & Dw).
        cbn [pts_original pts_warped trace].
        assert (Ho : (length (items (pts_original st)) <= maxlen (pts_original st))%nat)
          by (rewrite Lo, Mo; apply Nat.le_min_l).
        assert (Hw : (length (items (pts_warped st)) <= maxlen (pts_warped st))%nat)
          by (rewrite Lw, Mw; apply Nat.le_min_l).
        pose proof (length_appendleft (pts_original st) center Ho) as Lo'.
        pose proof (length_appendleft (pts_warped st)
                      (warp_center mapper center) Hw) as Lw'.
        rewrite Mo, Lo in Lo'. rewrite Mw, Lw in Lw'.
        assert (Ed : detections
                       (trace st ++ [WarpFrame; DebugOverlay; DetectBall] ++
                        overlay_events center (warp_center mapper center) radius ++
                        [DrawTrajectory StabilizedView
                           (items (appendleft (pts_original st) center)) buffer;
                         DrawTrajectory TopDownView
                           (items (appendleft (pts_warped st)
                                     (warp_center mapper center))) buffer;
                         Imshow StabilizedView; Imshow TopDownView;
                         Imshow MaskView; WaitKey])
                     = S (detections (trace st))).
        { rewrite !detections_app, detections_overlay. cbn. lia. }
        rewrite Ed.
        split; [exact Mo|]. split; [exact Mw|].
        split; [rewrite Lo'; lia|]. split; [rewrite Lw'; lia|].
        intros v pts b Hin.
        apply in_app_iff in Hin. destruct Hin as [Hin | Hin]; [exact (D v pts b Hin)|].
        apply in_app_iff in Hin. destruct Hin as [Hin | Hin].
        { cbn in Hin. destruct Hin as [Hin | [Hin | [Hin | []]]]; discriminate. }
        apply in_app_iff in Hin. destruct Hin as [Hin | Hin].
        { unfold overlay_events in Hin.
          destruct center as [c|]; [|destruct Hin].
          destruct (warp_center mapper (Some c)); cbn in Hin;
            repeat (destruct Hin as [Hin | Hin]; [discriminate|]); destruct Hin. }
        cbn [In] in Hin.
        destruct Hin as [Hin | [Hin | Hin]].
        + assert (Ep : items (appendleft (pts_original st) center) = pts)
            by congruence.
          assert (Eb : buffer = b) by congruence.
          rewrite <- Ep, <- Eb, Lo'.
          split; [reflexivity|]. split; [lia | exact Do].
        + assert (Ep : items (appendleft (pts_warped st)
                                (warp_center mapper center)) = pts)
            by congruence.
          assert (Eb : buffer = b) by congruence.
          rewrite <- Ep, <- Eb, Lw'.
          split; [reflexivity|]. split; [lia | exact Dw].
        + repeat (destruct Hin as [Hin | Hin]; [discriminate|]). destruct Hin.
      - destruct H as (-> & _). cbn [pts_original pts_warped trace].
        repeat split; try assumption; apply (D v pts b H). }
    destruct ctl.
    + exact (IH st1 st' E I1).
    + injection E as <-. exact I1.
Qed.

Lemma main_invariant (inputs : list (Frame * Z)) (given : option Z)
  (st : State) :
  main (Some inputs) given = Ok (Some st) ->
  (0 <= buffer_arg given)%Z
  /\ length (items (pts_original st))
     = Nat.min (Z.to_nat (buffer_arg given)) (detections (trace st))
  /\ length (items (pts_warped st))
     = Nat.min (Z.to_nat (buffer_arg given)) (detections (trace st))
  /\ forall v pts b, In (DrawTrajectory v pts b) (trace st) ->
                     b = buffer_arg given
                     /\ (length pts <= Z.to_nat (buffer_arg given))%nat
                     /\ exists lines,
                          Trajectory.draw_trajectory pts Trajectory.red b
                          = Ok lines.
Proof.
  intro Hmain. apply main_runs in Hmain. destruct Hmain as (Hb & Hrun).
  split; [exact Hb|].
  pose proof (run_counts _ _ (Z.to_nat (buffer_arg given)) _ _ _ Hrun) as H.
  cbn [pts_original pts_warped trace maxlen items length] in H.
  destruct H as (_ & _ & Lo & Lw & D).
  - split; [reflexivity|]. split; [reflexivity|].
    split; [rewrite Nat.min_0_r; reflexivity|].
    split; [rewrite Nat.min_0_r; reflexivity|].
    intros v pts b [].
  - auto.
Qed.

(** X14: every frame that goes through the loop body pushes exactly one
    entry on each trajectory, detection or not: after [main] each deque
    holds as many entries as [detect_ball] was called, up to the capacity. *)
Theorem trajectory_length_counts_frames (inputs : list (Frame * Z))
  (given : option Z) (st : State) :
  main (Some inputs) given = Ok (Some st) ->
  length (items (pts_original st))
  = Nat.min (Z.to_nat (buffer_arg given)) (detections (trace st))
  /\ length (items (pts_warped st))
     = Nat.min (Z.to_nat (buffer_arg given)) (detections (trace st)).
Proof.
  intro Hmain. apply main_invariant in Hmain.
  destruct Hmain as (_ & Lo & Lw & _). split; assumption.
Qed.

(** X15: in a run of [main] that returns, every call of [draw_trajectory]
    was on a trail no longer than the buffer size it was given, and every
    line it drew had a thickness from 2 to 32767: the square root of a
    number from 1 on is at least 1, and cv2.line accepted the
    thickness. *)
Theorem main_draws_within_capacity
  (inputs : list (Frame * Z)) (given : option Z) (st : State)
  (v : View) (pts : list (option point)) (b : Z) :
  (forall x, 1 <= x -> 1 <= Trajectory.sqrt x) ->
  main (Some inputs) given = Ok (Some st) ->
  In (DrawTrajectory v pts b) (trace st) ->
  (Z.of_nat (length pts) <= b)%Z
  /\ exists lines,
       Trajectory.draw_trajectory pts Trajectory.red b = Ok lines
       /\ Forall (fun l => 2 <= Trajectory.thickness l
                           <= Trajectory.MAX_THICKNESS)%Z lines.
Proof.
  intros Hsqrt Hmain Hin. apply main_invariant in Hmain.
  destruct Hmain as (Hb & _ & _ & D).
  destruct (D v pts b Hin) as (-> & Hlen & lines & Elines).
  assert (Hle : (Z.of_nat (length pts) <= buffer_arg given)%Z) by lia.
  split; [exact Hle|].
  exists lines. split; [exact Elines|].
  unfold Trajectory.draw_trajectory in Elines.
  pose proof (for_each_draw_checked _ _ _ _ _ _ Elines (Forall_nil _)) as Hup.
  pose proof (for_each_draw_lines _ _ _ _ _ _ Elines) as Hl.
  apply Forall_forall. intros l Hin'.
  rewrite Forall_forall in Hup. specialize (Hup l Hin').
  apply Hl in Hin'.
  destruct Hin' as [[] | (i & p & q & t & Hi & _ & _ & Et & ->)].
  cbn [Trajectory.thickness] in *. apply in_seq in Hi.
  pose proof (thickness_at_least_two (buffer_arg given) i t Hsqrt
                ltac:(lia) Et).
  lia.
Qed.


End DriverFacts.

(** *** The driver on the sample instance, continued *)

Lemma quit_needs_processed_frame_witness :
  exists st',
    @Tracker.loop_body Demo.cv Demo.vidstab DemoDraw.np (Mapper.init Tracker.FRAME_WIDTH) 64
      (Tracker.mkState (vidstab := Demo.vidstab) 1%nat
         (Tracker.mkDeque 64 []) (Tracker.mkDeque 64 []) [])
      (Demo.red_frame, 113%Z)
    = Ok (st', Tracker.Break)
    /\ forall rest,
         @Tracker.run Demo.cv Demo.vidstab DemoDraw.np (Mapper.init Tracker.FRAME_WIDTH) 64
           ((Demo.red_frame, 113%Z) :: rest)
           (Tracker.mkState (vidstab := Demo.vidstab) 1%nat
              (Tracker.mkDeque 64 []) (Tracker.mkDeque 64 []) [])
         = Ok st'.
Proof.
  eexists. split; [vm_compute; reflexivity|].
  eapply (@quit_needs_processed_frame Demo.cv Demo.vidstab DemoDraw.np
            (Mapper.init Tracker.FRAME_WIDTH) 64 _ _
            Demo.red_frame Demo.red_frame 113%Z 2%nat (Some Demo.red_frame)
            Tracker.Break).
  - vm_compute. reflexivity.
  - vm_compute. reflexivity.
  - vm_compute. reflexivity.
  - reflexivity.
Defined.

Lemma trajectory_length_counts_frames_witness :
  exists st,
    @Tracker.main Demo.cv Demo.vidstab DemoDraw.np (Some Demo.inputs) (Some 2%Z)
    = Ok (Some st)
    /\ Log.detections (Tracker.trace st) = 4%nat
    /\ length (Tracker.items (Tracker.pts_original st))
       = Nat.min (Z.to_nat (Tracker.buffer_arg (Some 2%Z)))
                 (Log.detections (Tracker.trace st))
    /\ length (Tracker.items (Tracker.pts_warped st))
       = Nat.min (Z.to_nat (Tracker.buffer_arg (Some 2%Z)))
                 (Log.detections (Tracker.trace st)).
Proof.
  eexists. split; [vm_compute; reflexivity|]. split; [reflexivity|].
  apply (@trajectory_length_counts_frames Demo.cv Demo.vidstab DemoDraw.np Demo.inputs
           (Some 2%Z)).
  vm_compute. reflexivity.
Defined.

Lemma main_draws_within_capacity_witness :
  (Z.of_nat (length [Some (15, 15)%Z]) <= 2)%Z
  /\ exists lines,
       @Trajectory.draw_trajectory DemoDraw.np [Some (15, 15)%Z]
         Trajectory.red 2
       = Ok lines
       /\ Forall (fun l => 2 <= Trajectory.thickness l
                           <= Trajectory.MAX_THICKNESS)%Z lines.
Proof.
  eapply (@main_draws_within_capacity Demo.cv Demo.vidstab DemoDraw.np
            Demo.inputs (Some 2%Z) _ Tracker.StabilizedView
            [Some (15, 15)%Z] 2).
  - exact demo_sqrt_ge_1.
  - vm_compute. reflexivity.
  - vm_compute. auto 10.
Defined.

Lemma cleaned_mask_marks_red_only_witness :
  exists px,
    Morphology.frame_at (@Detector.hsv_of Demo.cv Demo.red_frame) 1 1 = Some px
    /\ Detector.is_red px.
Proof.
  apply (@cleaned_mask_marks_red_only Demo.cv Demo.red_frame 1 1 255).
  - vm_compute. reflexivity.
  - discriminate.
Defined.

Lemma zero_division_only_without_columns_witness :
  @Tracker.loop_body Demo.cv Demo.vidstab DemoDraw.np
    (Mapper.init Tracker.FRAME_WIDTH) 64
    (Tracker.mkState (vidstab := Demo.vidstab) 0%nat
       (Tracker.mkDeque 64 []) (Tracker.mkDeque 64 []) [])
    ([[]; []], 0%Z)
  = Raise ZeroDivisionError.
Proof.
  apply (@zero_division_only_without_columns Demo.cv Demo.vidstab DemoDraw.np).
  reflexivity.
Defined.

